(** * Backlog-modify generation: single-flight orchestration of one provider query

    A shallow embedding of the backlog-modify server routes:
    - [routes/backlog-modify/common.ts]   the running flag and the stored abort controller,
    - the handlers of POST /generate, POST /stop and GET /status under
      [routes/backlog-modify/routes/],
    - [routes/backlog-modify/generate-modify.ts]   the background generation task.

    Node runs the handlers and the continuations of the background task one at a
    time; a task gives up control only at an [await].  The server is therefore a
    state machine whose steps are whole handler runs and single resumptions of a
    suspended task.  Logging calls have no effect on the state and are left out. *)

From Stdlib Require Import Ascii String.
From stdpp Require Import base list strings pretty gmap.

Open Scope string_scope.
Open Scope list_scope.
Open Scope nat_scope.

(** ** JavaScript values used by the routes *)

Module Js.

Definition nl : string := String (ascii_of_nat 10) EmptyString.
Definition dquote : string := String (ascii_of_nat 34) EmptyString.

(** A [string] holds the UTF-8 encoding of a JavaScript string, one byte
    per [ascii] (a lone surrogate is encoded like any other code point of
    three bytes).  Concatenation, comparison and the search for a
    substring act on the encoding as they act on the string.  The [length]
    property does not: it counts UTF-16 code units. *)

(** The code units that start at a byte: one at the first byte of a code
    point below U+10000 (a byte below 0x80, or a lead byte 0xC0..0xEF), two
    at the lead byte of any other code point (0xF0 and above), none at a
    continuation byte (0x80..0xBF). *)
Definition code_units (c : ascii) : nat :=
  let n := nat_of_ascii c in
  if Nat.ltb n 128 then 1
  else if Nat.ltb n 192 then 0
  else if Nat.ltb n 240 then 1
  else 2.

(** [s.length]. *)
Fixpoint String_length (s : string) : nat :=
  match s with
  | EmptyString => 0
  | String c rest => code_units c + String_length rest
  end.

(** Truthiness of a possibly-undefined string: [undefined] and the empty
    string are falsy. *)
Definition truthy (v : option string) : bool :=
  match v with
  | Some (String _ _) => true
  | _ => false
  end.

(** [`${v}`] for a possibly-undefined string. *)
Definition interpolate (v : option string) : string :=
  match v with
  | Some s => s
  | None => "undefined"
  end.

(** A thrown value: an [Error] object with its message, or anything else
    with its [String(...)] rendering. *)
Inductive Thrown :=
| ErrorObject (message : string)
| OtherValue (rendering : string).

(** The state a promise settles in. *)
Inductive Settled (A : Type) :=
| Fulfilled (value : A)
| Rejected (reason : Thrown).
Arguments Fulfilled {A} value.
Arguments Rejected {A} reason.

(** [Array.prototype.join] on strings. *)
Fixpoint join (sep : string) (xs : list string) : string :=
  match xs with
  | [] => EmptyString
  | [x] => x
  | x :: rest => x +:+ sep +:+ join sep rest
  end.

(** Splits [s] around the first occurrence of [pat]. *)
Fixpoint split_first (pat s : string) : option (string * string) :=
  if String.prefix pat s
  then Some (EmptyString, String.substring (String.length pat) (String.length s - String.length pat) s)
  else match s with
       | EmptyString => None
       | String c s' =>
           match split_first pat s' with
           | Some (before, after) => Some (String c before, after)
           | None => None
           end
       end.

(** The replacement text of [String.prototype.replace] for a string
    pattern: [$$], [$&], [$`] and [$'] are expanded, every other
    character stands for itself. *)
Fixpoint substitution (matched before after replacement : string) : string :=
  match replacement with
  | String "$" (String c rest as tail) =>
      if Ascii.eqb c "$" then "$" +:+ substitution matched before after rest
      else if Ascii.eqb c "&" then matched +:+ substitution matched before after rest
      else if Ascii.eqb c "`" then before +:+ substitution matched before after rest
      else if Ascii.eqb c "'" then after +:+ substitution matched before after rest
      else String "$" (substitution matched before after tail)
  | String c rest => String c (substitution matched before after rest)
  | EmptyString => EmptyString
  end.

(** [s.replace(pat, replacement)] with a string pattern: only the first
    occurrence is replaced. *)
Definition replace (s pat replacement : string) : string :=
  match split_first pat s with
  | Some (before, after) => before +:+ substitution pat before after replacement +:+ after
  | None => s
  end.

End Js.

Import Js.

(** ** Collaborators outside the routes

    The JSON extractor, the model resolver, the provider factory and the
    declarations of [@automaker/types] are imported by the routes; the
    routes only rely on the operations listed here. *)

(** [BacklogPlanResult], over the types of its entries. *)
Record BacklogPlanResult (Change Dependency : Type) := {
  changes : list Change;
  summary : string;
  dependencyUpdates : list Dependency;
}.
Arguments changes {Change Dependency} _.
Arguments summary {Change Dependency} _.
Arguments dependencyUpdates {Change Dependency} _.

Class Externals := {
  (** JavaScript [number] and its rendering in a template literal. *)
  Number : Type;
  Number_toString : Number → string;
  (** [String.prototype.trim]. *)
  String_trim : string → string;
  (** [BacklogChange] and its [type] field; the entries of
      [dependencyUpdates]. *)
  BacklogChange : Type;
  change_type : BacklogChange → string;
  DependencyUpdate : Type;
  (** [PhaseModelEntry], [DEFAULT_PHASE_MODELS.backlogPlanningModel],
      [resolvePhaseModel] (its [model] and [thinkingLevel]) and
      [isCursorModel]. *)
  PhaseModelEntry : Type;
  DEFAULT_backlogPlanningModel : PhaseModelEntry;
  resolvePhaseModel : PhaseModelEntry → string * option string;
  isCursorModel : string → bool;
  (** [ProviderFactory.getProviderForModel]. *)
  Provider : Type;
  getProviderForModel : string → Provider;
  (** [extractJsonWithArray<BacklogPlanResult>(response, 'changes',
      { logger })]; [None] stands for [null]. *)
  extractJsonWithArray :
    string → option (BacklogPlanResult BacklogChange DependencyUpdate);
}.

Section Model.
Context `{Ext : Externals}.

(** *** Data *)

(** The fields of [Feature] that the routes read. *)
Record Feature := {
  id : string;
  title : option string;
  category : string;
  description : string;
  priority : option Number;
  status : option string;
  dependencies : option (list string);
}.

Definition Plan : Type := BacklogPlanResult BacklogChange DependencyUpdate.

(** A content block of an assistant message. *)
Record ContentBlock := {
  block_type : string;
  text : option string;
}.

(** [ProviderMessage]: [message?.content] is flattened into
    [content]. *)
Record ProviderMessage := {
  msg_type : string;
  subtype : option string;
  content : option (list ContentBlock);
  result : option string;
}.

(** The argument of [provider.executeQuery]; the abort controller is a
    reference into the store of controllers. *)
Record ExecuteOptions := {
  opt_prompt : string;
  opt_model : string;
  cwd : string;
  systemPrompt : option string;
  maxTurns : nat;
  allowedTools : list string;
  abortController : nat;
  settingSources : option (list string);
  readOnly : bool;
  thinkingLevel : option string;
}.

(** [prompts.backlogModify]. *)
Record Prompts := {
  bm_systemPrompt : string;
  bm_userPromptTemplate : string;
}.

(** Payloads emitted on the ['backlog-modify:event'] channel. *)
Inductive Payload :=
| backlog_modify_progress (content : string)
| backlog_modify_complete (result : Plan)
| backlog_modify_error (error : string).

(** What [res.status(..).json(..)] sent. *)
Record Response := {
  res_status : nat;
  success : bool;
  res_error : option string;
  res_message : option string;
  res_isRunning : option bool;
}.

Definition json_ok : Response :=
  {| res_status := 200; success := true; res_error := None;
     res_message := None; res_isRunning := None |}.

Definition json_error (code : nat) (msg : string) : Response :=
  {| res_status := code; success := false; res_error := Some msg;
     res_message := None; res_isRunning := None |}.

Definition json_message (msg : string) : Response :=
  {| res_status := 200; success := true; res_error := None;
     res_message := Some msg; res_isRunning := None |}.

(** [req.body] of POST /generate. *)
Record GenerateBody := {
  body_projectPath : option string;
  body_prompt : option string;
  body_model : option string;
}.

(** What the awaited collaborators answer during one generation, and the
    messages the provider's stream yields before it ends normally
    ([stream_failure = None]) or throws. *)
Record Answers := {
  featureLoader_getAll : Settled (list Feature);
  getPromptCustomization : Settled Prompts;
  (** [settings?.phaseModels?.backlogPlanningModel] after
      [await settingsService?.getGlobalSettings()]. *)
  getGlobalSettings : Settled (option PhaseModelEntry);
  getAutoLoadClaudeMdSetting : Settled bool;
  stream_messages : list ProviderMessage;
  stream_failure : option Thrown;
}.

(** Where a call of [generateBacklogModify] is suspended: at one of its
    four [await]s before the query, at the [for await] waiting for the next
    message with the text accumulated so far and the messages still to
    come, or, once the loop body has thrown, at the [await] of the stream's
    [return()] that precedes the [catch] block.  [Returned] is a call that
    has settled. *)
Inductive Suspended :=
| AwaitFeatures
| AwaitPrompts (features : list Feature)
| AwaitSettings (sysPrompt userPrompt : string)
| AwaitAutoLoad (sysPrompt userPrompt effectiveModel : string)
    (thinking : option string)
| AwaitNext (responseText : string) (rest : list ProviderMessage)
| AwaitClose (error : Thrown)
| Returned (outcome : Settled Plan).

(** One background call of [generateBacklogModify]. *)
Record Task := {
  projectPath : string;
  prompt : string;
  model : option string;
  controller : nat;
  answers : Answers;
  at_ : Suspended;
}.

(** The module state of [common.ts], the [AbortController] objects
    created so far ([true] once aborted), everything emitted on the event
    bus, every [executeQuery] call made, and the background tasks. *)
Record Server := {
  isRunning : bool;
  currentAbortController : option nat;
  controllers : list bool;
  bus : list (string * Payload);
  queries : list (Provider * ExecuteOptions);
  tasks : list Task;
}.

Definition initial : Server :=
  {| isRunning := false; currentAbortController := None; controllers := [];
     bus := []; queries := []; tasks := [] |}.


(** *** Record updates *)

Definition set_bus (b : list (string * Payload)) (s : Server) : Server :=
  {| isRunning := isRunning s; currentAbortController := currentAbortController s;
     controllers := controllers s; bus := b; queries := queries s; tasks := tasks s |}.

Definition set_controllers (cs : list bool) (s : Server) : Server :=
  {| isRunning := isRunning s; currentAbortController := currentAbortController s;
     controllers := cs; bus := bus s; queries := queries s; tasks := tasks s |}.

Definition set_queries (qs : list (Provider * ExecuteOptions)) (s : Server) : Server :=
  {| isRunning := isRunning s; currentAbortController := currentAbortController s;
     controllers := controllers s; bus := bus s; queries := qs; tasks := tasks s |}.

Definition set_tasks (ts : list Task) (s : Server) : Server :=
  {| isRunning := isRunning s; currentAbortController := currentAbortController s;
     controllers := controllers s; bus := bus s; queries := queries s; tasks := ts |}.

Definition suspend_at (pc : Suspended) (t : Task) : Task :=
  {| projectPath := projectPath t; prompt := prompt t; model := model t;
     controller := controller t; answers := answers t; at_ := pc |}.

(** *** common.ts *)

Definition getBacklogModifyStatus (s : Server) : bool := isRunning s.

(** [setRunningState(running, abortController?)]: the second argument is
    [None] when omitted ([undefined]), [Some None] for [null]. *)
Definition setRunningState (running : bool) (abortController : option (option nat))
    (s : Server) : Server :=
  {| isRunning := running;
     currentAbortController :=
       match abortController with
       | Some c => c
       | None => currentAbortController s
       end;
     controllers := controllers s; bus := bus s; queries := queries s;
     tasks := tasks s |}.

Definition getAbortController (s : Server) : option nat := currentAbortController s.

Definition getErrorMessage (error : Thrown) : string :=
  match error with
  | ErrorObject message => message
  | OtherValue rendering => rendering
  end.

(** *** AbortController objects and the event bus *)

(** [new AbortController()]: a fresh object, not aborted. *)
Definition new_AbortController (s : Server) : nat * Server :=
  (length (controllers s), set_controllers (controllers s ++ [false]) s).

(** [c.abort()]. *)
Definition abort (c : nat) (s : Server) : Server :=
  set_controllers (<[c := true]> (controllers s)) s.

(** [c.signal.aborted]. *)
Definition aborted (c : nat) (s : Server) : bool :=
  match controllers s !! c with
  | Some b => b
  | None => false
  end.

Definition channel : string := "backlog-modify:event".

(** [events.emit('backlog-modify:event', payload)]. *)
Definition emit (payload : Payload) (s : Server) : Server :=
  set_bus (bus s ++ [(channel, payload)]) s.

(** *** The POST /stop and GET /status routes *)

Definition createStopHandler (s : Server) : Server * Response :=
  match getAbortController s with
  | Some abortController =>
      let s := abort abortController s in
      let s := setRunningState false (Some None) s in
      (s, json_message "Generation stopped")
  | None => (s, json_message "No generation running")
  end.

Definition createStatusHandler (s : Server) : Server * Response :=
  (s, {| res_status := 200; success := true; res_error := None;
         res_message := None; res_isRunning := Some (getBacklogModifyStatus s) |}).

(** *** generate-modify.ts *)

Definition eligible (f : Feature) : Prop :=
  status f = Some "backlog" ∨ status f = Some "in_progress".

#[global] Instance eligible_dec f : Decision (eligible f).
Proof. unfold eligible. apply _. Defined.

Definition formatFeature (f : Feature) : string :=
  let deps :=
    match dependencies f with
    | Some ((_ :: _) as ds) => "Dependencies: [" +:+ join ", " ds +:+ "]"
    | _ => EmptyString
    end in
  let priority :=
    match priority f with
    | Some p => "Priority: " +:+ Number_toString p
    | None => EmptyString
    end in
  String_trim
    ("- ID: " +:+ id f +:+ nl +:+
     "  Title: " +:+ (if truthy (title f) then interpolate (title f) else "Untitled") +:+ nl +:+
     "  Description: " +:+ description f +:+ nl +:+
     "  Category: " +:+ category f +:+ nl +:+
     "  Status: " +:+ interpolate (status f) +:+ nl +:+
     "  " +:+ priority +:+ nl +:+
     "  " +:+ deps).

Definition formatFeaturesForPrompt (features : list Feature) : string :=
  let eligibleFeatures := filter eligible features in
  match eligibleFeatures with
  | [] => "No features in backlog or in progress."
  | _ => join (nl +:+ nl) (formatFeature <$> eligibleFeatures)
  end.

Definition parseModifyResponse (response : string) : Plan :=
  match extractJsonWithArray response with
  | Some parsed =>
      let updateChanges := filter (λ c, change_type c = "update") (changes parsed) in
      {| changes := updateChanges; summary := summary parsed; dependencyUpdates := [] |}
  | None =>
      {| changes := []; summary := "Failed to parse AI response";
         dependencyUpdates := [] |}
  end.

(** The prompt sent to a Cursor model: the system prompt, the fixed
    block of instructions and the user prompt. *)
Definition cursorPrompt (sysPrompt userPrompt : string) : string :=
  sysPrompt +:+ nl +:+ nl +:+
  "CRITICAL INSTRUCTIONS:" +:+ nl +:+
  "1. DO NOT write any files. Return the JSON in your response only." +:+ nl +:+
  "2. DO NOT use Write, Edit, or any file modification tools." +:+ nl +:+
  "3. Respond with ONLY a JSON object - no explanations, no markdown, just raw JSON." +:+ nl +:+
  "4. Your entire response should be valid JSON starting with { and ending with }." +:+ nl +:+
  "5. No text before or after the JSON object." +:+ nl +:+
  "6. ONLY include " +:+ dquote +:+ "update" +:+ dquote +:+ " type changes - no " +:+
    dquote +:+ "add" +:+ dquote +:+ " or " +:+ dquote +:+ "delete" +:+ dquote +:+ "." +:+
  nl +:+ nl +:+ userPrompt.

(** The object passed to [provider.executeQuery]. *)
Definition executeOptions (t : Task) (sysPrompt userPrompt effectiveModel : string)
    (thinking : option string) (autoLoadClaudeMd : bool) : ExecuteOptions :=
  let cursor := isCursorModel effectiveModel in
  {| opt_prompt := if cursor then cursorPrompt sysPrompt userPrompt else userPrompt;
     opt_model := effectiveModel;
     cwd := projectPath t;
     systemPrompt := if cursor then None else Some sysPrompt;
     maxTurns := 1;
     allowedTools := [];
     abortController := controller t;
     settingSources := if autoLoadClaudeMd then Some ["user"; "project"] else None;
     readOnly := true;
     thinkingLevel := thinking |}.

(** The text blocks of an assistant message, appended in order
    ([responseText += block.text]). *)
Fixpoint appendText (responseText : string) (blocks : list ContentBlock) : string :=
  match blocks with
  | [] => responseText
  | block :: rest =>
      appendText
        (if String.eqb (block_type block) "text"
         then responseText +:+ interpolate (text block)
         else responseText)
        rest
  end.

(** The body of the [for await] loop after the abort check: the new
    [responseText]. *)
Definition consume (responseText : string) (msg : ProviderMessage) : string :=
  if String.eqb (msg_type msg) "assistant" then
    match content msg with
    | Some blocks => appendText responseText blocks
    | None => responseText
    end
  else if String.eqb (msg_type msg) "result"
       && bool_decide (subtype msg = Some "success")
       && truthy (result msg) then
    if Nat.ltb (String_length responseText) (String_length (interpolate (result msg)))
    then interpolate (result msg)
    else responseText
  else responseText.

(** The [catch] block and the [finally] block of
    [generateBacklogModify]: the error is announced, rethrown, and the
    running state cleared. *)
Definition failed (error : Thrown) (s : Server) : Server * Suspended :=
  let s := emit (backlog_modify_error (getErrorMessage error)) s in
  let s := setRunningState false (Some None) s in
  (s, Returned (Rejected error)).

(** [generateBacklogModify] from one suspension point to the next.  The
    state is read and written as the continuation finds it when it is
    resumed. *)
Definition generateBacklogModify (t : Task) (s : Server) : Server * Suspended :=
  match at_ t with
  | AwaitFeatures =>
      match featureLoader_getAll (answers t) with
      | Rejected error => failed error s
      | Fulfilled features =>
          let eligibleFeatures := filter eligible features in
          let s :=
            emit (backlog_modify_progress
                    ("Loaded " +:+ pretty (length eligibleFeatures) +:+
                     " features (backlog/in_progress) from " +:+
                     pretty (length features) +:+ " total")) s in
          (s, AwaitPrompts features)
      end
  | AwaitPrompts features =>
      match getPromptCustomization (answers t) with
      | Rejected error => failed error s
      | Fulfilled prompts =>
          let sysPrompt := bm_systemPrompt prompts in
          let currentFeatures := formatFeaturesForPrompt features in
          let userPrompt :=
            replace
              (replace (bm_userPromptTemplate prompts) "{{currentFeatures}}" currentFeatures)
              "{{userRequest}}" (prompt t) in
          let s := emit (backlog_modify_progress "Generating modifications with AI...") s in
          if truthy (model t)
          then (s, AwaitAutoLoad sysPrompt userPrompt (interpolate (model t)) None)
          else (s, AwaitSettings sysPrompt userPrompt)
      end
  | AwaitSettings sysPrompt userPrompt =>
      match getGlobalSettings (answers t) with
      | Rejected error => failed error s
      | Fulfilled entry =>
          let phaseModelEntry := default DEFAULT_backlogPlanningModel entry in
          let resolved := resolvePhaseModel phaseModelEntry in
          (s, AwaitAutoLoad sysPrompt userPrompt resolved.1 resolved.2)
      end
  | AwaitAutoLoad sysPrompt userPrompt effectiveModel thinking =>
      match getAutoLoadClaudeMdSetting (answers t) with
      | Rejected error => failed error s
      | Fulfilled autoLoadClaudeMd =>
          let provider := getProviderForModel effectiveModel in
          let options :=
            executeOptions t sysPrompt userPrompt effectiveModel thinking autoLoadClaudeMd in
          let s := set_queries (queries s ++ [(provider, options)]) s in
          (s, AwaitNext EmptyString (stream_messages (answers t)))
      end
  | AwaitNext responseText (msg :: rest) =>
      if aborted (controller t) s
      then (s, AwaitClose (ErrorObject "Generation aborted"))
      else (s, AwaitNext (consume responseText msg) rest)
  | AwaitNext responseText [] =>
      match stream_failure (answers t) with
      | Some error => failed error s
      | None =>
          let result := parseModifyResponse responseText in
          let s := emit (backlog_modify_complete result) s in
          let s := setRunningState false (Some None) s in
          (s, Returned (Fulfilled result))
      end
  | AwaitClose error => failed error s
  | Returned outcome => (s, Returned outcome)
  end.

(** *** The POST /generate route *)

(** The [.catch(..).finally(..)] chained on the background call.  Both
    callbacks run as soon as the call has settled, before any other
    handler. *)
Definition background_settled (outcome : Settled Plan) (s : Server) : Server :=
  let s :=
    match outcome with
    | Rejected error => emit (backlog_modify_error (getErrorMessage error)) s
    | Fulfilled _ => s
    end in
  setRunningState false (Some None) s.

(** POST /generate.  [ans] is what the collaborators will answer to the
    background call, should the request start one.  The call runs up to
    its first [await] inside the handler.  Nothing in the [try] block throws
    for a body that is an object, so the handler's own [catch] (status 500)
    is never entered. *)
Definition createGenerateHandler (body : GenerateBody) (ans : Answers)
    (s : Server) : Server * Response :=
  if negb (truthy (body_projectPath body)) then (s, json_error 400 "projectPath required")
  else if negb (truthy (body_prompt body)) then (s, json_error 400 "prompt required")
  else if getBacklogModifyStatus s
  then (s, json_error 200 "Backlog modify generation is already running")
  else
    let s := setRunningState true None s in
    let '(abortController, s) := new_AbortController s in
    let s := setRunningState true (Some (Some abortController)) s in
    let task :=
      {| projectPath := interpolate (body_projectPath body);
         prompt := interpolate (body_prompt body);
         model := body_model body;
         controller := abortController;
         answers := ans;
         at_ := AwaitFeatures |} in
    (set_tasks (tasks s ++ [task]) s, json_ok).

(** *** The server as a state machine

    A step is one request handled to completion or one resumption of a
    suspended background task; any interleaving of them is a run. *)

Definition settled (t : Task) : bool :=
  match at_ t with
  | Returned _ => true
  | _ => false
  end.

(** Resumes background task [tid] at the [await] it is suspended on. *)
Definition resume (tid : nat) (s : Server) : Server :=
  match tasks s !! tid with
  | Some t =>
      if settled t then s
      else
        let '(s, pc) := generateBacklogModify t s in
        let s :=
          match pc with
          | Returned outcome => background_settled outcome s
          | _ => s
          end in
        set_tasks (<[tid := suspend_at pc t]> (tasks s)) s
  | None => s
  end.

Inductive Action :=
| PostGenerate (body : GenerateBody) (ans : Answers)
| PostStop
| GetStatus
| Resume (tid : nat).

Definition step (a : Action) (s : Server) : Server :=
  match a with
  | PostGenerate body ans => (createGenerateHandler body ans s).1
  | PostStop => (createStopHandler s).1
  | GetStatus => (createStatusHandler s).1
  | Resume tid => resume tid s
  end.

Definition run (actions : list Action) (s : Server) : Server :=
  foldl (λ s a, step a s) s actions.

Definition reachable (s : Server) : Prop :=
  ∃ actions, s = run actions initial.

End Model.

(** ** A concrete set of collaborators and sample runs *)

Module Demo.

Definition is_space (c : ascii) : bool :=
  let n := nat_of_ascii c in (Nat.leb 9 n && Nat.leb n 13) || Nat.eqb n 32.

Fixpoint trim_start (s : string) : string :=
  match s with
  | String c rest => if is_space c then trim_start rest else s
  | EmptyString => EmptyString
  end.

Definition trim (s : string) : string :=
  String.rev (trim_start (String.rev (trim_start s))).

(** A stand-in extractor: it understands the single response ["PLAN"],
    which carries one change of each kind and one dependency update. *)
Definition extract (response : string)
    : option (BacklogPlanResult (string * string) string) :=
  if String.eqb response "PLAN"
  then Some {| changes := [("update", "f1"); ("add", "f2"); ("delete", "f3")];
               summary := "three changes";
               dependencyUpdates := ["f1 needs f2"] |}
  else None.

#[global] Instance externals : Externals := {|
  Number := nat;
  Number_toString := pretty;
  String_trim := trim;
  BacklogChange := string * string;
  change_type := fst;
  DependencyUpdate := string;
  PhaseModelEntry := string * option string;
  DEFAULT_backlogPlanningModel := ("sonnet", None);
  resolvePhaseModel := λ entry, entry;
  isCursorModel := String.prefix "cursor-";
  Provider := string;
  getProviderForModel := λ m, if String.prefix "cursor-" m then "cursor" else "claude";
  extractJsonWithArray := extract;
|}.

Definition body : GenerateBody :=
  {| body_projectPath := Some "/repo"; body_prompt := Some "raise priorities";
     body_model := None |}.

Definition body_without_prompt : GenerateBody :=
  {| body_projectPath := Some "/repo"; body_prompt := None; body_model := None |}.

Definition assistant (t : string) : ProviderMessage :=
  {| msg_type := "assistant"; subtype := None;
     content := Some [{| block_type := "text"; text := Some t |}]; result := None |}.

Definition result_success (r : string) : ProviderMessage :=
  {| msg_type := "result"; subtype := Some "success"; content := None;
     result := Some r |}.

(** Collaborators that all answer, with a stream of [msgs] that ends as
    [failure] says. *)
Definition answering (msgs : list ProviderMessage) (failure : option Thrown) : Answers :=
  {| featureLoader_getAll := Fulfilled [];
     getPromptCustomization :=
       Fulfilled {| bm_systemPrompt := "You edit backlogs.";
                    bm_userPromptTemplate := "{{currentFeatures}} / {{userRequest}}" |};
     getGlobalSettings := Fulfilled None;
     getAutoLoadClaudeMdSetting := Fulfilled false;
     stream_messages := msgs;
     stream_failure := failure |}.

(** The start of a job up to the first [await] on the stream. *)
Definition started (ans : Answers) : Server :=
  run [PostGenerate body ans; Resume 0; Resume 0; Resume 0; Resume 0] initial.

End Demo.

(** ** Sample runs *)

Section Samples.
Import Demo.

(** The task of a job started with [Demo.body], at a given point. *)
Definition job (ans : Answers) (pc : Suspended) : Task :=
  {| projectPath := "/repo"; prompt := "raise priorities"; model := None;
     controller := 0; answers := ans; at_ := pc |}.

(** A job whose stream yields "a", "b" and the final result "ab". *)
Definition ab_stream : Answers :=
  answering [assistant "a"; assistant "b"; result_success "ab"] None.

(** The same job run until it has returned. *)
Definition ab_finished : Server :=
  run [Resume 0; Resume 0; Resume 0; Resume 0] (started ab_stream).


(** A job stopped while it waits for the first message, then resumed
    until it has returned. *)
Definition stopped : Server := run [PostStop] (started (answering [assistant "a"] None)).
Definition cancelled : Server := run [Resume 0; Resume 0] stopped.

(** A job whose provider throws before the first message. *)
Definition crashing (message : string) : Server :=
  started (answering [] (Some (ErrorObject message))).
Definition crashed (message : string) : Server := run [Resume 0] (crashing message).

(** A job stopped and a second one started while the task of the first is
    still suspended; then the first task resumed until it has returned. *)
Definition restarted : Server :=
  run [PostStop; PostGenerate body ab_stream] (started ab_stream).
Definition overtaken : Server := run [Resume 0; Resume 0] restarted.

End Samples.

(** ** What the runs of the server keep true: definitions *)

Section ServerInvariantDefinitions.
Context `{Ext : Externals}.

(** A task that has not yet called [provider.executeQuery]. *)
Definition before_query (t : Task) : bool :=
  match at_ t with
  | AwaitFeatures | AwaitPrompts _ | AwaitSettings _ _ | AwaitAutoLoad _ _ _ _ => true
  | _ => false
  end.

(** The model a task is about to query: the one of the request when it
    carries one, with no thinking level; otherwise the one resolved from
    the settings' [backlogPlanningModel] or, without it, from
    [DEFAULT_PHASE_MODELS.backlogPlanningModel]. *)
Definition resolved_for (t : Task) (effectiveModel : string) (thinking : option string)
    : Prop :=
  if truthy (model t)
  then effectiveModel = interpolate (model t) ∧ thinking = None
  else ∃ entry,
         getGlobalSettings (answers t) = Fulfilled entry
         ∧ resolvePhaseModel (default DEFAULT_backlogPlanningModel entry)
           = (effectiveModel, thinking).

Definition model_respected (t : Task) : Prop :=
  match at_ t with
  | AwaitSettings _ _ => truthy (model t) = false
  | AwaitAutoLoad _ _ effectiveModel thinking => resolved_for t effectiveModel thinking
  | _ => True
  end.

(** [q] is a query that task [t] made. *)
Definition query_of (q : Provider * ExecuteOptions) (t : Task) : Prop :=
  abortController q.2 = controller t
  ∧ cwd q.2 = projectPath t
  ∧ maxTurns q.2 = 1
  ∧ q.1 = getProviderForModel (opt_model q.2)
  ∧ resolved_for t (opt_model q.2) (thinkingLevel q.2).

(** What every run of the server keeps true. *)
Record Inv (s : Server) : Prop := {
  inv_flag :
    match currentAbortController s with
    | Some c => isRunning s = true ∧ controllers s !! c = Some false
    | None => isRunning s = false
    end;
  inv_live :
    ∀ c, currentAbortController s = Some c →
         ∃ t, last (tasks s) = Some t ∧ controller t = c ∧ settled t = false;
  inv_allocated :
    ∀ i t, tasks s !! i = Some t → controller t < length (controllers s);
  inv_distinct :
    ∀ i j t u, tasks s !! i = Some t → tasks s !! j = Some u →
               controller t = controller u → i = j;
  inv_model : ∀ i t, tasks s !! i = Some t → model_respected t;
  inv_queries :
    ∀ k q, queries s !! k = Some q →
           ∃ i t, tasks s !! i = Some t ∧ before_query t = false ∧ query_of q t;
  inv_once :
    ∀ k l q r, queries s !! k = Some q → queries s !! l = Some r →
               abortController q.2 = abortController r.2 → k = l;
}.

(** A message the loop takes without touching the accumulated text:
    neither an assistant message nor a result of subtype 'success' with a
    non-empty result. *)
Definition ignored (msg : ProviderMessage) : Prop :=
  msg_type msg ≠ "assistant"
  ∧ (msg_type msg ≠ "result" ∨ subtype msg ≠ Some "success" ∨ truthy (result msg) = false).

(** A published completion; a task that returned an artifact. *)
Definition is_complete (e : string * Payload) : bool :=
  match e.2 with
  | backlog_modify_complete _ => true
  | _ => false
  end.

Definition fulfilled (t : Task) : bool :=
  match at_ t with
  | Returned (Fulfilled _) => true
  | _ => false
  end.

(** A task whose next resumption takes a message from the stream: the
    only point where [abortController.signal.aborted] is read. *)
Definition taking_message (t : Task) : bool :=
  match at_ t with
  | AwaitNext _ (_ :: _) => true
  | _ => false
  end.

End ServerInvariantDefinitions.

Section PromptModel.
Context `{Ext : Externals}.

(** The user prompt that [generateBacklogModify] builds from the template:
    the template with [{{currentFeatures}}] filled in, then with
    [{{userRequest}}] filled in. *)
Definition withFeatures (prompts : Prompts) (features : list Feature) : string :=
  replace (bm_userPromptTemplate prompts) "{{currentFeatures}}"
    (formatFeaturesForPrompt features).

Definition userPromptOf (prompts : Prompts) (features : list Feature) (request : string)
    : string :=
  replace (withFeatures prompts features) "{{userRequest}}" request.

(** [sysPrompt] and [userPrompt] are the prompts of task [t]: the system
    prompt of the loaded customization, and the user prompt built from its
    template, the loaded features and the request of the task. *)
Definition prompts_of (t : Task) (sysPrompt userPrompt : string) : Prop :=
  ∃ features prompts,
    featureLoader_getAll (answers t) = Fulfilled features
    ∧ getPromptCustomization (answers t) = Fulfilled prompts
    ∧ sysPrompt = bm_systemPrompt prompts
    ∧ userPrompt = userPromptOf prompts features (prompt t).

(** What a suspended task holds in its locals on the way to the query. *)
Definition prompt_respected (t : Task) : Prop :=
  match at_ t with
  | AwaitPrompts features => featureLoader_getAll (answers t) = Fulfilled features
  | AwaitSettings sysPrompt userPrompt
  | AwaitAutoLoad sysPrompt userPrompt _ _ => prompts_of t sysPrompt userPrompt
  | _ => True
  end.

(** [q] is a query made with the prompts of task [t]. *)
Definition prompted_by (q : Provider * ExecuteOptions) (t : Task) : Prop :=
  abortController q.2 = controller t
  ∧ ∃ sysPrompt userPrompt,
      prompts_of t sysPrompt userPrompt
      ∧ opt_prompt q.2
        = (if isCursorModel (opt_model q.2)
           then cursorPrompt sysPrompt userPrompt else userPrompt)
      ∧ systemPrompt q.2
        = (if isCursorModel (opt_model q.2) then None else Some sysPrompt).

End PromptModel.

(** ** The POST /apply route *)

(** The fields of [BacklogChange] that the route reads besides [type];
    [FeaturePatch] stands for [Partial<Feature>]. *)
Class ChangeFields `{Ext : Externals} := {
  FeaturePatch : Type;
  change_featureId : BacklogChange → option string;
  change_feature : BacklogChange → option FeaturePatch;
}.

Section ApplyModel.
Context `{Fields : ChangeFields}.

(** [req.body] of POST /apply: [plan] may be missing, and so may its
    [changes]. *)
Record ApplyBody := {
  apply_projectPath : option string;
  apply_plan : option (option (list BacklogChange));
}.

Record ApplyResponse := {
  apply_status : nat;
  apply_success : bool;
  apply_error : option string;
  res_appliedChanges : option (list string);
}.

(** A call [featureLoader.update(projectPath, featureId, feature)]. *)
Record UpdateCall := {
  call_projectPath : string;
  call_featureId : string;
  call_patch : FeaturePatch;
}.

(** What [featureLoader.update] answers to the call made after [n]
    earlier ones. *)
Definition Updater : Type := nat → UpdateCall → Settled Feature.

(** The locals of the handler while it goes through the changes, with the
    calls to [featureLoader.update] made so far. *)
Record Applying := {
  featureMap : gmap string Feature;
  appliedChanges : list string;
  updateCalls : list UpdateCall;
}.

(** [new Map(allFeatures.map((f) => [f.id, f]))]: a later feature with the
    same id replaces an earlier one. *)
Definition featureMapOf (allFeatures : list Feature) : gmap string Feature :=
  foldl (λ m f, <[id f := f]> m) ∅ allFeatures.

(** The body of the loop over the update changes. *)
Definition applyChange (projectPath : string) (update : Updater) (st : Applying)
    (change : BacklogChange) : Applying :=
  match change_featureId change, change_feature change with
  | Some (String _ _ as featureId), Some feature =>
      match featureMap st !! featureId with
      | None => st
      | Some existingFeature =>
          if decide (eligible existingFeature) then
            let call :=
              {| call_projectPath := projectPath; call_featureId := featureId;
                 call_patch := feature |} in
            match update (length (updateCalls st)) call with
            | Fulfilled updated =>
                {| featureMap := <[featureId := updated]> (featureMap st);
                   appliedChanges := appliedChanges st ++ ["updated:" +:+ featureId];
                   updateCalls := updateCalls st ++ [call] |}
            | Rejected _ =>
                {| featureMap := featureMap st;
                   appliedChanges := appliedChanges st;
                   updateCalls := updateCalls st ++ [call] |}
            end
          else st
      end
  | _, _ => st
  end.

Definition apply_refused (code : nat) (msg : string) : ApplyResponse :=
  {| apply_status := code; apply_success := false; apply_error := Some msg;
     res_appliedChanges := None |}.

(** POST /apply, given what [featureLoader.getAll] and
    [featureLoader.update] answer: the calls to [featureLoader.update] it
    made and its response. *)
Definition createApplyHandler (body : ApplyBody) (getAll : Settled (list Feature))
    (update : Updater) : list UpdateCall * ApplyResponse :=
  match apply_projectPath body with
  | Some (String _ _ as projectPath) =>
      match apply_plan body with
      | Some (Some planChanges) =>
          match getAll with
          | Rejected error => ([], apply_refused 500 (getErrorMessage error))
          | Fulfilled allFeatures =>
              let updates := filter (λ c, change_type c = "update") planChanges in
              let st :=
                foldl (applyChange projectPath update)
                  {| featureMap := featureMapOf allFeatures; appliedChanges := [];
                     updateCalls := [] |}
                  updates in
              (updateCalls st,
               {| apply_status := 200; apply_success := true; apply_error := None;
                  res_appliedChanges := Some (appliedChanges st) |})
          end
      | _ => ([], apply_refused 400 "plan with changes required")
      end
  | _ => ([], apply_refused 400 "projectPath required")
  end.

(** The call a change asks for, if it names a feature and carries a
    patch. *)
Definition requested (projectPath : string) (change : BacklogChange) : option UpdateCall :=
  match change_featureId change, change_feature change with
  | Some (String _ _ as featureId), Some feature =>
      Some {| call_projectPath := projectPath; call_featureId := featureId;
              call_patch := feature |}
  | _, _ => None
  end.

(** The entries of [appliedChanges] for a sequence of calls: one for each
    call that [featureLoader.update] fulfilled. *)
Definition reported (update : Updater) (calls : list UpdateCall) : list string :=
  omap (λ o, o)
    (imap (λ n call,
             match update n call with
             | Fulfilled _ => Some ("updated:" +:+ call_featureId call)
             | Rejected _ => None
             end) calls).

(** The feature that [featureMapOf] holds under an id: the last one of the
    list with that id. *)
Definition loaded (allFeatures : list Feature) (featureId : string) : option Feature :=
  last (filter (λ f, id f = featureId) allFeatures).

(** The call a change asks for, if the feature it names was loaded in
    'backlog' or 'in_progress'. *)
Definition due (projectPath : string) (allFeatures : list Feature)
    (change : BacklogChange) : option UpdateCall :=
  match requested projectPath change with
  | Some call =>
      match loaded allFeatures (call_featureId call) with
      | Some f => if decide (eligible f) then Some call else None
      | None => None
      end
  | None => None
  end.

End ApplyModel.

(** ** The review dialog of the application

    The selection state of [BacklogModifyDialog] and what its Apply
    button sends to POST /apply. *)

Section DialogModel.
Context `{Ext : Externals}.

(** [new Set(pendingModifyResult.changes.map((_, i) => i))]: the selection
    when the dialog opens on a pending result, and after "select all". *)
Definition allChanges (pendingModifyResult : Plan) : gset nat :=
  list_to_set (seq 0 (length (changes pendingModifyResult))).

(** The updater passed to [setSelectedChanges] by
    [toggleChangeSelected(index)] (and to [setExpandedChanges] by
    [toggleChangeExpanded(index)]). *)
Definition toggleChangeSelected (index : nat) (prev : gset nat) : gset nat :=
  if decide (index ∈ prev) then prev ∖ {[index]} else prev ∪ {[index]}.

(** [toggleAllChanges()]: the new selection. *)
Definition toggleAllChanges (pendingModifyResult : option Plan) (selectedChanges : gset nat)
    : gset nat :=
  match pendingModifyResult with
  | None => selectedChanges
  | Some pending =>
      if decide (size selectedChanges = length (changes pending))
      then ∅
      else allChanges pending
  end.

(** [pendingModifyResult.changes.filter((_, index) =>
    selectedChanges.has(index))]. *)
Definition selectedChangesList (pending : Plan) (selectedChanges : gset nat)
    : list BacklogChange :=
  snd <$> filter (λ entry, entry.1 ∈ selectedChanges) (imap pair (changes pending)).

(** [handleApply()]: the plan passed to [api.backlogModify.apply], if the
    handler gets that far.  [apiAvailable] says whether
    [getElectronAPI()?.backlogModify] is there. *)
Definition handleApply (apiAvailable : bool) (pendingModifyResult : option Plan)
    (selectedChanges : gset nat) : option Plan :=
  match pendingModifyResult with
  | None => None
  | Some pending =>
      match selectedChangesList pending selectedChanges with
      | [] => None
      | selected =>
          if apiAvailable
          then Some {| changes := selected; summary := summary pending;
                       dependencyUpdates := [] |}
          else None
      end
  end.

End DialogModel.

(** ** libs/types: UI features and Cursor models *)

Module Types.

(** [String.prototype.includes]. *)
Fixpoint includes (s keyword : string) : bool :=
  String.prefix keyword s
  || match s with
     | EmptyString => false
     | String _ rest => includes rest keyword
     end.

Definition uiCategories : list string := ["ui"; "enhancement"].

Definition uiKeywords : list string :=
  ["button"; "modal"; "dialog"; "form"; "input"; "display"; "component"; "page";
   "view"; "dashboard"; "layout"; "style"; "css"; "visual"; "ui"; "interface";
   "screen"; "panel"; "menu"; "navigation"; "icon"; "badge"].

Section IsUiFeature.
(** [String.prototype.toLowerCase]. *)
Variable toLowerCase : string → string.

(** The text [isUiFeature] searches for keywords. *)
Definition searchedText (description : string) (title : option string) : string :=
  toLowerCase
    (description +:+ " " +:+ (if truthy title then interpolate title else EmptyString)).

(** [isUiFeature(feature)], on the three fields it takes. *)
Definition isUiFeature (category description : string) (title : option string) : bool :=
  if bool_decide (toLowerCase category ∈ uiCategories) then true
  else existsb (includes (searchedText description title)) uiKeywords.

End IsUiFeature.

(** [CursorModelConfig]. *)
Record CursorModelConfig := {
  cfg_id : string;
  label : string;
  cfg_description : string;
  hasThinking : bool;
}.

(** [CURSOR_MODEL_MAP], in the order of its keys. *)
Definition CURSOR_MODEL_MAP : list (string * CursorModelConfig) :=
  [("auto", {| cfg_id := "auto"; label := "Auto (Recommended)";
               cfg_description := "Automatically selects the best model for each task";
               hasThinking := false |});
   ("composer-1", {| cfg_id := "composer-1"; label := "Composer 1";
               cfg_description := "Cursor Composer agent model optimized for multi-file edits";
               hasThinking := false |});
   ("sonnet-4.5", {| cfg_id := "sonnet-4.5"; label := "Claude Sonnet 4.5";
               cfg_description := "Anthropic Claude Sonnet 4.5 via Cursor";
               hasThinking := false |});
   ("sonnet-4.5-thinking", {| cfg_id := "sonnet-4.5-thinking";
               label := "Claude Sonnet 4.5 (Thinking)";
               cfg_description := "Claude Sonnet 4.5 with extended thinking enabled";
               hasThinking := true |});
   ("opus-4.5", {| cfg_id := "opus-4.5"; label := "Claude Opus 4.5";
               cfg_description := "Anthropic Claude Opus 4.5 via Cursor";
               hasThinking := false |});
   ("opus-4.5-thinking", {| cfg_id := "opus-4.5-thinking";
               label := "Claude Opus 4.5 (Thinking)";
               cfg_description := "Claude Opus 4.5 with extended thinking enabled";
               hasThinking := true |});
   ("opus-4.1", {| cfg_id := "opus-4.1"; label := "Claude Opus 4.1";
               cfg_description := "Anthropic Claude Opus 4.1 via Cursor";
               hasThinking := false |});
   ("gemini-3-pro", {| cfg_id := "gemini-3-pro"; label := "Gemini 3 Pro";
               cfg_description := "Google Gemini 3 Pro via Cursor";
               hasThinking := false |});
   ("gemini-3-flash", {| cfg_id := "gemini-3-flash"; label := "Gemini 3 Flash";
               cfg_description := "Google Gemini 3 Flash (faster)";
               hasThinking := false |});
   ("gpt-5.2", {| cfg_id := "gpt-5.2"; label := "GPT-5.2";
               cfg_description := "OpenAI GPT-5.2 via Cursor"; hasThinking := false |});
   ("gpt-5.1", {| cfg_id := "gpt-5.1"; label := "GPT-5.1";
               cfg_description := "OpenAI GPT-5.1 via Cursor"; hasThinking := false |});
   ("gpt-5.2-high", {| cfg_id := "gpt-5.2-high"; label := "GPT-5.2 High";
               cfg_description := "OpenAI GPT-5.2 with high compute";
               hasThinking := false |});
   ("gpt-5.1-high", {| cfg_id := "gpt-5.1-high"; label := "GPT-5.1 High";
               cfg_description := "OpenAI GPT-5.1 with high compute";
               hasThinking := false |});
   ("gpt-5.1-codex", {| cfg_id := "gpt-5.1-codex"; label := "GPT-5.1 Codex";
               cfg_description := "OpenAI GPT-5.1 Codex for code generation";
               hasThinking := false |});
   ("gpt-5.1-codex-high", {| cfg_id := "gpt-5.1-codex-high"; label := "GPT-5.1 Codex High";
               cfg_description := "OpenAI GPT-5.1 Codex with high compute";
               hasThinking := false |});
   ("gpt-5.1-codex-max", {| cfg_id := "gpt-5.1-codex-max"; label := "GPT-5.1 Codex Max";
               cfg_description := "OpenAI GPT-5.1 Codex Max capacity";
               hasThinking := false |});
   ("gpt-5.1-codex-max-high", {| cfg_id := "gpt-5.1-codex-max-high";
               label := "GPT-5.1 Codex Max High";
               cfg_description := "OpenAI GPT-5.1 Codex Max with high compute";
               hasThinking := false |});
   ("grok", {| cfg_id := "grok"; label := "Grok";
               cfg_description := "xAI Grok via Cursor"; hasThinking := false |})].

(** [CURSOR_MODEL_MAP[modelId]], as far as its [label] and [hasThinking]
    can tell: an id without an own entry gives [undefined] for both. *)
Fixpoint entry (table : list (string * CursorModelConfig)) (modelId : string)
    : option CursorModelConfig :=
  match table with
  | [] => None
  | (key, config) :: rest => if String.eqb key modelId then Some config else entry rest modelId
  end.

Definition cursorModelHasThinking (modelId : string) : bool :=
  match entry CURSOR_MODEL_MAP modelId with
  | Some config => hasThinking config
  | None => false
  end.

Definition getCursorModelLabel (modelId : string) : string :=
  match entry CURSOR_MODEL_MAP modelId with
  | Some config => label config
  | None => modelId
  end.

Definition getAllCursorModelIds : list string := fst <$> CURSOR_MODEL_MAP.

End Types.

(** ** More sample data *)

Module DemoApply.

#[global] Instance fields : ChangeFields (Ext := Demo.externals) := {|
  FeaturePatch := string;
  change_featureId := λ change, Some change.2;
  change_feature := λ change, Some ("status of " +:+ change.2);
|}.

Definition feature (featureId featureStatus : string) : Feature :=
  {| id := featureId; title := None; category := "core"; description := "sample";
     priority := None; status := Some featureStatus; dependencies := None |}.

Definition features : list Feature := [feature "f1" "backlog"; feature "f2" "verified"].

(** Updates for a backlog feature, a verified one and an unknown one, and
    an add. *)
Definition plan : list BacklogChange :=
  [("update", "f1"); ("update", "f2"); ("add", "f3"); ("update", "f9")].

Definition body : ApplyBody :=
  {| apply_projectPath := Some "/repo"; apply_plan := Some (Some plan) |}.

Definition succeeding : Updater :=
  λ _ call, Fulfilled (feature (call_featureId call) "backlog").

Definition failing : Updater := λ _ _, Rejected (ErrorObject "disk full").

Definition call_f1 : UpdateCall :=
  {| call_projectPath := "/repo"; call_featureId := "f1"; call_patch := "status of f1" |}.

(** Two updates for the backlog feature, with one for the verified feature
    in between. *)
Definition plan_twice : list BacklogChange :=
  [("update", "f1"); ("update", "f2"); ("update", "f1")].

Definition body_twice : ApplyBody :=
  {| apply_projectPath := Some "/repo"; apply_plan := Some (Some plan_twice) |}.

(** A feature that depends on two others. *)
Definition dependent : Feature :=
  {| id := "f7"; title := Some "Search"; category := "core"; description := "Find items";
     priority := Some 2; status := Some "backlog"; dependencies := Some ["f1"; "f2"] |}.

End DemoApply.

Section MoreSamples.
Import Demo.

(** Messages that report an error instead of text. *)
Definition error_message : ProviderMessage :=
  {| msg_type := "error"; subtype := None; content := None; result := None |}.
Definition result_error : ProviderMessage :=
  {| msg_type := "result"; subtype := Some "error"; content := None; result := None |}.

Definition complaining : Server := started (answering [error_message; result_error] None).

(** The stopped first job of [restarted], once it has seen its signal. *)
Definition closing : Server := run [Resume 0] restarted.


End MoreSamples.

(** ** Properties *)

Section Properties.
Context `{Ext : Externals}.

(** The artifact produced when the response cannot be parsed. *)
Definition degenerate : Plan :=
  {| changes := []; summary := "Failed to parse AI response"; dependencyUpdates := [] |}.

(** The terminal events of a job. *)
Definition terminal (e : string * Payload) : bool :=
  match e.2 with
  | backlog_modify_progress _ => false
  | backlog_modify_complete _ | backlog_modify_error _ => true
  end.

(** A plan that a modify-only generation may publish. *)
Definition updates_only (p : Plan) : Prop :=
  (∀ c, c ∈ changes p → change_type c = "update") ∧ dependencyUpdates p = [].

(** A query that gives the backend no tool and no write access. *)
Definition text_only (q : Provider * ExecuteOptions) : Prop :=
  readOnly q.2 = true ∧ allowedTools q.2 = [].

(** Resumptions a task still needs before it has returned. *)
Definition steps_left (t : Task) : nat :=
  match at_ t with
  | AwaitFeatures => 6 + length (stream_messages (answers t))
  | AwaitPrompts _ => 5 + length (stream_messages (answers t))
  | AwaitSettings _ _ => 4 + length (stream_messages (answers t))
  | AwaitAutoLoad _ _ _ _ => 3 + length (stream_messages (answers t))
  | AwaitNext _ rest => 2 + length rest
  | AwaitClose _ => 1
  | Returned _ => 0
  end.




(** A request that POST /generate does not turn away for a missing
    field. *)
Definition well_formed (body : GenerateBody) : bool :=
  truthy (body_projectPath body) && truthy (body_prompt body).

(** *** Case analysis of one resumption *)

Ltac gen_cases t :=
  unfold generateBacklogModify, failed;
  destruct (at_ t) as [|features|sysP usrP|sysP usrP eff th|txt [|msg rest]|err|out];
  repeat match goal with
    | |- context [match ?x with Fulfilled _ => _ | Rejected _ => _ end] => destruct x
    | |- context [if truthy ?x then _ else _] => destruct (truthy x)
    | |- context [if aborted ?c ?s then _ else _] => destruct (aborted c s)
    | |- context [match stream_failure ?a with Some _ => _ | None => _ end] =>
        destruct (stream_failure a)
    end; simpl.

Lemma resume_unfold s tid t :
  tasks s !! tid = Some t → settled t = false →
  resume tid s =
    let s1 := (generateBacklogModify t s).1 in
    let pc := (generateBacklogModify t s).2 in
    let s2 := match pc with
              | Returned outcome => background_settled outcome s1
              | _ => s1
              end in
    set_tasks (<[tid := suspend_at pc t]> (tasks s2)) s2.
Proof.
  intros Hlook Hs. unfold resume. rewrite Hlook, Hs.
  destruct (generateBacklogModify t s) as [s1 pc]. reflexivity.
Qed.

Lemma resume_idle s tid :
  (∀ t, tasks s !! tid = Some t → settled t = true) → resume tid s = s.
Proof.
  intros H. unfold resume. destruct (tasks s !! tid) as [t|] eqn:E; [|done].
  by rewrite (H t eq_refl).
Qed.

(** A call of [generateBacklogModify] touches neither the controllers
    nor the task table. *)
Lemma generateBacklogModify_frame t s :
  controllers (generateBacklogModify t s).1 = controllers s
  ∧ tasks (generateBacklogModify t s).1 = tasks s.
Proof. gen_cases t; done. Qed.

Lemma background_settled_frame outcome s :
  controllers (background_settled outcome s) = controllers s
  ∧ tasks (background_settled outcome s) = tasks s
  ∧ queries (background_settled outcome s) = queries s
  ∧ isRunning (background_settled outcome s) = false
  ∧ currentAbortController (background_settled outcome s) = None.
Proof. destruct outcome; done. Qed.

Lemma resume_task s tid t :
  tasks s !! tid = Some t → settled t = false →
  tasks (resume tid s) =
    <[tid := suspend_at (generateBacklogModify t s).2 t]> (tasks s).
Proof.
  intros Hlook Hs. rewrite (resume_unfold _ _ _ Hlook Hs). simpl.
  destruct (generateBacklogModify_frame t s) as [_ Ht].
  destruct (generateBacklogModify t s) as [s1 pc]; simpl in *.
  destruct pc as [| | | | | |[]]; simpl; by rewrite Ht.
Qed.

Lemma resume_lookup s tid t :
  tasks s !! tid = Some t → settled t = false →
  tasks (resume tid s) !! tid = Some (suspend_at (generateBacklogModify t s).2 t).
Proof.
  intros Hlook Hs. rewrite (resume_task _ _ _ Hlook Hs).
  apply list_lookup_insert_eq. by eapply lookup_lt_Some.
Qed.

(** What one resumption publishes and leaves behind, by the point the
    task reaches. *)
Lemma resume_bus s tid t :
  tasks s !! tid = Some t → settled t = false →
  match (generateBacklogModify t s).2 with
  | Returned (Fulfilled result) =>
      (∃ response, result = parseModifyResponse response)
      ∧ bus (resume tid s) = bus s ++ [(channel, backlog_modify_complete result)]
      ∧ isRunning (resume tid s) = false
      ∧ currentAbortController (resume tid s) = None
  | Returned (Rejected error) =>
      bus (resume tid s) =
        bus s ++ [(channel, backlog_modify_error (getErrorMessage error));
                  (channel, backlog_modify_error (getErrorMessage error))]
      ∧ isRunning (resume tid s) = false
      ∧ currentAbortController (resume tid s) = None
  | _ =>
      ∃ evs, bus (resume tid s) = bus s ++ evs ∧ filter (λ e, terminal e = true) evs = []
  end.
Proof.
  intros Hlook Hs. rewrite (resume_unfold _ _ _ Hlook Hs).
  unfold settled in Hs. revert Hs. gen_cases t; intros Hs; try discriminate;
    rewrite <- ?app_assoc; simpl; eauto;
    try (by exists []; rewrite app_nil_r);
    try (eexists; split; [reflexivity|done]).
Qed.

Lemma resume_cases s tid :
  resume tid s = s
  ∨ ∃ t, tasks s !! tid = Some t ∧ settled t = false.
Proof.
  destruct (tasks s !! tid) as [t|] eqn:E.
  - destruct (settled t) eqn:Hs; [left|right; eauto].
    apply resume_idle. intros t' Ht'. congruence.
  - left. apply resume_idle. intros t' Ht'. congruence.
Qed.

Lemma resume_complete s tid result :
  (channel, backlog_modify_complete result) ∈ bus (resume tid s) →
  (channel, backlog_modify_complete result) ∈ bus s
  ∨ ∃ response, result = parseModifyResponse response.
Proof.
  destruct (resume_cases s tid) as [->|(t & Hlook & Hs)]; [by left|].
  pose proof (resume_bus _ _ _ Hlook Hs) as H.
  destruct (generateBacklogModify t s).2 as [| | | | | |[r|e]];
    try (destruct H as (evs & -> & Hevs); rewrite elem_of_app;
         intros [?|Hin]; [by left|];
         assert (Hf : (channel, backlog_modify_complete result)
                        ∈ filter (λ e, terminal e = true) evs)
           by (by apply list_elem_of_filter);
         rewrite Hevs in Hf; by apply elem_of_nil in Hf).
  - destruct H as (Hr & -> & _). rewrite elem_of_app, list_elem_of_singleton.
    intros [?|Heq]; [by left|right]. by simplify_eq.
  - destruct H as (-> & _). rewrite elem_of_app. intros [?|Hin]; [by left|].
    apply elem_of_cons in Hin as [Heq|Hin]; [discriminate|].
    apply list_elem_of_singleton in Hin. discriminate.
Qed.

Lemma resume_queries s tid :
  ∃ extra, queries (resume tid s) = queries s ++ extra ∧ Forall text_only extra.
Proof.
  destruct (resume_cases s tid) as [->|(t & Hlook & Hs)].
  { exists []. by rewrite app_nil_r. }
  rewrite (resume_unfold _ _ _ Hlook Hs). unfold settled in Hs. revert Hs.
  gen_cases t; intros Hs; try discriminate;
    try (by exists []; rewrite app_nil_r).
  eexists; split; [reflexivity|]. by repeat constructor.
Qed.

Lemma createGenerateHandler_frame body ans s :
  bus (createGenerateHandler body ans s).1 = bus s
  ∧ queries (createGenerateHandler body ans s).1 = queries s.
Proof.
  unfold createGenerateHandler.
  destruct (truthy (body_projectPath body)), (truthy (body_prompt body)),
    (getBacklogModifyStatus s); done.
Qed.

Lemma createStopHandler_frame s :
  bus (createStopHandler s).1 = bus s
  ∧ queries (createStopHandler s).1 = queries s
  ∧ tasks (createStopHandler s).1 = tasks s.
Proof. unfold createStopHandler. by destruct (getAbortController s). Qed.

Lemma run_snoc actions a s : run (actions ++ [a]) s = step a (run actions s).
Proof. unfold run. by rewrite foldl_app. Qed.

Lemma reachable_initial : reachable initial.
Proof. by exists []. Qed.

Lemma reachable_run actions s : reachable s → reachable (run actions s).
Proof.
  intros [before ->]. exists (before ++ actions). unfold run. by rewrite foldl_app.
Qed.

(** Induction over the runs of the server. *)
Lemma reachable_ind (P : Server → Prop) :
  P initial → (∀ a s, reachable s → P s → P (step a s)) →
  ∀ s, reachable s → P s.
Proof.
  intros Hinit Hstep s [actions ->].
  induction actions as [|a actions IH] using rev_ind; [done|].
  rewrite run_snoc. apply Hstep; [by eexists|done].
Qed.

Lemma parseModifyResponse_updates_only response :
  updates_only (parseModifyResponse response).
Proof.
  unfold parseModifyResponse, updates_only.
  destruct (extractJsonWithArray response) as [parsed|]; simpl.
  - split; [|done]. intros c Hc. by apply list_elem_of_filter in Hc as [? _].
  - split; [|done]. intros c Hc. by apply elem_of_nil in Hc.
Qed.

Lemma reachable_complete s result :
  reachable s → (channel, backlog_modify_complete result) ∈ bus s →
  ∃ response, result = parseModifyResponse response.
Proof.
  intros Hreach. revert result. pattern s. revert s Hreach.
  apply reachable_ind; [|intros a s _ IH]; intros result.
  { simpl. intros H. by apply elem_of_nil in H. }
  destruct a as [body ans| | |tid]; simpl.
  - destruct (createGenerateHandler_frame body ans s) as [-> _]. apply IH.
  - destruct (createStopHandler_frame s) as [-> _]. apply IH.
  - apply IH.
  - intros H. apply resume_complete in H as [H|H]; [by apply IH|done].
Qed.

Lemma reachable_queries s : reachable s → Forall text_only (queries s).
Proof.
  revert s. apply reachable_ind; [by constructor|intros a s _ IH].
  destruct a as [body ans| | |tid]; simpl.
  - by destruct (createGenerateHandler_frame body ans s) as [_ ->].
  - by destruct (createStopHandler_frame s) as (_ & -> & _).
  - done.
  - destruct (resume_queries s tid) as (extra & -> & Hextra).
    by apply Forall_app.
Qed.

(** *** The loop over the provider's stream, step by step *)

Lemma resume_next s tid t responseText msg rest :
  tasks s !! tid = Some t → at_ t = AwaitNext responseText (msg :: rest) →
  aborted (controller t) s = false →
  resume tid s =
    set_tasks (<[tid := suspend_at (AwaitNext (consume responseText msg) rest) t]> (tasks s)) s.
Proof.
  intros Hlook Hat Hab. unfold resume, settled, generateBacklogModify.
  by rewrite Hlook, Hat, Hab.
Qed.

Lemma resume_abort_seen s tid t responseText msg rest :
  tasks s !! tid = Some t → at_ t = AwaitNext responseText (msg :: rest) →
  aborted (controller t) s = true →
  resume tid s =
    set_tasks
      (<[tid := suspend_at (AwaitClose (ErrorObject "Generation aborted")) t]> (tasks s)) s.
Proof.
  intros Hlook Hat Hab. unfold resume, settled, generateBacklogModify.
  by rewrite Hlook, Hat, Hab.
Qed.

Lemma resume_end s tid t responseText :
  tasks s !! tid = Some t → at_ t = AwaitNext responseText [] →
  stream_failure (answers t) = None →
  resume tid s =
    set_tasks
      (<[tid := suspend_at (Returned (Fulfilled (parseModifyResponse responseText))) t]>
         (tasks s))
      (setRunningState false (Some None)
         (emit (backlog_modify_complete (parseModifyResponse responseText)) s)).
Proof.
  intros Hlook Hat Hok. unfold resume, settled, generateBacklogModify.
  by rewrite Hlook, Hat, Hok.
Qed.

Lemma resume_throws s tid t error :
  tasks s !! tid = Some t →
  at_ t = AwaitClose error
  ∨ (∃ responseText, at_ t = AwaitNext responseText []
                     ∧ stream_failure (answers t) = Some error) →
  resume tid s =
    set_tasks
      (<[tid := suspend_at (Returned (Rejected error)) t]> (tasks s))
      (setRunningState false (Some None)
         (emit (backlog_modify_error (getErrorMessage error))
            (emit (backlog_modify_error (getErrorMessage error)) s))).
Proof.
  intros Hlook [Hat|(responseText & Hat & Hfail)];
    unfold resume, settled, generateBacklogModify; by rewrite Hlook, Hat, ?Hfail.
Qed.

Lemma lookup_set_task (s s' : Server) tid t t' :
  tasks s !! tid = Some t → tasks (set_tasks (<[tid := t']> (tasks s)) s') !! tid = Some t'.
Proof. intros Hlook. simpl. apply list_lookup_insert_eq. by eapply lookup_lt_Some. Qed.

(** Consuming a run of messages while the controller stays untouched. *)
Lemma resume_messages tid t msgs :
  ∀ s responseText rest,
    tasks s !! tid = Some t → at_ t = AwaitNext responseText (msgs ++ rest) →
    aborted (controller t) s = false →
    let s' := Nat.iter (length msgs) (resume tid) s in
    tasks s' !! tid = Some (suspend_at (AwaitNext (foldl consume responseText msgs) rest) t)
    ∧ bus s' = bus s ∧ controllers s' = controllers s
    ∧ isRunning s' = isRunning s
    ∧ currentAbortController s' = currentAbortController s.
Proof.
  induction msgs as [|msg msgs IH] using rev_ind; intros s responseText rest Hlook Hat Hab.
  { simpl. rewrite Hlook. repeat split. f_equal. destruct t; simpl in *; by subst. }
  rewrite length_app, Nat.add_comm. simpl.
  rewrite <- app_assoc in Hat. simpl in Hat.
  destruct (IH s responseText (msg :: rest) Hlook Hat Hab) as (Hl & Hb & Hc & Hr & Ha).
  set (s1 := Nat.iter (length msgs) (resume tid) s) in *.
  rewrite (resume_next s1 tid _ _ msg rest Hl eq_refl).
  2:{ unfold aborted in *. simpl. by rewrite Hc. }
  rewrite foldl_app. simpl. repeat split; try done.
  rewrite list_lookup_insert_eq by (by eapply lookup_lt_Some). done.
Qed.

Lemma append_assoc (a b c : string) : (a +:+ b) +:+ c = a +:+ (b +:+ c).
Proof.
  induction a as [|x a IH]; [done|].
  change (String x ((a +:+ b) +:+ c) = String x (a +:+ (b +:+ c))). by rewrite IH.
Qed.






(** *** Admission *)


(** C1 (amended).  For a POST /generate request that carries a non-empty
    projectPath and a non-empty prompt: while a generation is running the
    handler answers success: false with the already-running error and
    leaves the whole state, the task table included, as it was; when none
    is running it answers success: true, and on return the running flag
    is set, a fresh, unsignalled abort controller is stored and exactly
    one background task has been added.  A request that lacks projectPath
    or prompt is refused with status 400 before the admission check,
    whatever the running flag, and changes nothing. *)
Theorem C1_single_flight_admission (body : GenerateBody) (ans : Answers) (s : Server) :
  (well_formed body = true → isRunning s = true →
     createGenerateHandler body ans s =
       (s, json_error 200 "Backlog modify generation is already running"))
  ∧ (well_formed body = true → isRunning s = false →
       ∃ task,
         createGenerateHandler body ans s =
           ({| isRunning := true;
               currentAbortController := Some (length (controllers s));
               controllers := controllers s ++ [false];
               bus := bus s; queries := queries s;
               tasks := tasks s ++ [task] |}, json_ok)
         ∧ at_ task = AwaitFeatures
         ∧ controller task = length (controllers s)
         ∧ answers task = ans)
  ∧ (well_formed body = false →
       (createGenerateHandler body ans s).1 = s
       ∧ success (createGenerateHandler body ans s).2 = false
       ∧ res_status (createGenerateHandler body ans s).2 = 400).
Proof.
  unfold well_formed, createGenerateHandler, getBacklogModifyStatus.
  destruct (truthy (body_projectPath body)), (truthy (body_prompt body));
    simpl; repeat split; try discriminate.
  - by intros _ ->.
  - intros _ ->. eexists. split; [reflexivity|done].
Qed.

(** *** Cancellation requests *)

(** C6.  POST /stop always answers success: true and never publishes
    anything on the bus.  With no controller stored it changes nothing.
    With a controller stored it signals that controller, clears the
    running flag and the stored controller.  In both cases a stop that
    follows immediately finds no controller and changes nothing. *)
Theorem C6_stop_is_idempotent (s : Server) :
  success (createStopHandler s).2 = true
  ∧ res_status (createStopHandler s).2 = 200
  ∧ bus (createStopHandler s).1 = bus s
  ∧ (currentAbortController s = None →
       createStopHandler s = (s, json_message "No generation running"))
  ∧ (∀ c, currentAbortController s = Some c →
       (createStopHandler s).2 = json_message "Generation stopped"
       ∧ controllers (createStopHandler s).1 = <[c := true]> (controllers s)
       ∧ (c < length (controllers s) → aborted c (createStopHandler s).1 = true)
       ∧ isRunning (createStopHandler s).1 = false
       ∧ currentAbortController (createStopHandler s).1 = None)
  ∧ createStopHandler (createStopHandler s).1
    = ((createStopHandler s).1, json_message "No generation running").
Proof.
  unfold createStopHandler, getAbortController.
  destruct (currentAbortController s) as [c|] eqn:Hc; simpl.
  - split; [done|]. split; [done|]. split; [done|]. split; [done|]. split; [|done].
    intros c' [= <-]. split; [done|]. split; [done|]. split; [|done].
    intros Hlt. unfold aborted. simpl. by rewrite list_lookup_insert_eq.
  - rewrite Hc. split; [done|]. split; [done|]. split; [done|]. split; [done|]. done.
Qed.

(** *** The provider query *)

(** C9.  The options built for [executeQuery] have readOnly = true and an
    empty allowedTools list for every task, prompt and model; for a
    Cursor model only the prompt and the system prompt differ.  On every
    run of the server, every [executeQuery] call that was made carried
    such options. *)
Theorem C9_queries_are_read_only_and_tool_free :
  (∀ t sysPrompt userPrompt effectiveModel thinking autoLoad,
     let options :=
       executeOptions t sysPrompt userPrompt effectiveModel thinking autoLoad in
     readOnly options = true ∧ allowedTools options = []
     ∧ (isCursorModel effectiveModel = true →
          opt_prompt options = cursorPrompt sysPrompt userPrompt
          ∧ systemPrompt options = None)
     ∧ (isCursorModel effectiveModel = false →
          opt_prompt options = userPrompt ∧ systemPrompt options = Some sysPrompt))
  ∧ (∀ s, reachable s →
       ∀ provider options, (provider, options) ∈ queries s →
         readOnly options = true ∧ allowedTools options = []).
Proof.
  split.
  - intros t sysPrompt userPrompt effectiveModel thinking autoLoad. simpl.
    destruct (isCursorModel effectiveModel); repeat split; done.
  - intros s Hs provider options Hin.
    pose proof (reachable_queries s Hs) as Hall.
    rewrite Forall_forall in Hall. by apply (Hall (provider, options)).
Qed.

(** *** The published artifact *)

(** C10.  For every response text, parsed or not, [parseModifyResponse]
    returns an artifact whose changes all have type 'update' and whose
    dependencyUpdates is empty; consequently, on every run of the server,
    every backlog_modify_complete event on the bus carries such an
    artifact. *)
Theorem C10_artifacts_hold_updates_only :
  (∀ response, updates_only (parseModifyResponse response))
  ∧ (∀ response parsed,
       extractJsonWithArray response = Some parsed →
       changes (parseModifyResponse response)
       = filter (λ c, change_type c = "update") (changes parsed))
  ∧ (∀ s result,
       reachable s → (channel, backlog_modify_complete result) ∈ bus s →
       updates_only result).
Proof.
  split; [apply parseModifyResponse_updates_only|]. split.
  - intros response parsed H. unfold parseModifyResponse. by rewrite H.
  - intros s result Hs Hin.
    destruct (reachable_complete s result Hs Hin) as [response ->].
    apply parseModifyResponse_updates_only.
Qed.

(** C5.  A response text that the extractor cannot parse makes
    [parseModifyResponse] return the degenerate artifact (no changes,
    summary 'Failed to parse AI response', no dependency updates)
    instead of raising; a job whose stream ends normally with such a text
    publishes exactly one event, backlog_modify_complete carrying that
    artifact, and returns it. *)
Theorem C5_parse_failure_is_a_completion (response : string) :
  extractJsonWithArray response = None →
  parseModifyResponse response = degenerate
  ∧ ∀ s tid t,
      tasks s !! tid = Some t → at_ t = AwaitNext response [] →
      stream_failure (answers t) = None →
      bus (resume tid s) = bus s ++ [(channel, backlog_modify_complete degenerate)]
      ∧ tasks (resume tid s) !! tid
        = Some (suspend_at (Returned (Fulfilled degenerate)) t).
Proof.
  intros Hnone.
  assert (Hparse : parseModifyResponse response = degenerate).
  { unfold parseModifyResponse. by rewrite Hnone. }
  split; [done|]. intros s tid t Hlook Hat Hok.
  rewrite (resume_end _ _ _ _ Hlook Hat Hok), Hparse. split; [done|].
  by eapply lookup_set_task.
Qed.

(** *** The response text *)

Lemma consume_result responseText msg r :
  msg_type msg = "result" → subtype msg = Some "success" → result msg = Some r →
  consume responseText msg
  = if Nat.ltb (String_length responseText) (String_length r) then r else responseText.
Proof.
  intros Htype Hsub Hres. unfold consume. rewrite Htype, Hsub, Hres.
  destruct r as [|c r]; [|done]. cbn [truthy interpolate andb String.eqb Ascii.eqb].
  simpl. by destruct (String_length responseText).
Qed.

(** C4.  A terminal result message of subtype 'success' carrying the
    result string [r] replaces the accumulated text by [r] when [r] is
    strictly longer, and keeps the accumulated text when [r] is shorter
    or of equal length, lengths being counted in UTF-16 code units as
    [.length] counts them.  So the text after the message is [r] if and
    only if [r] is strictly longer, the one exception being a result equal
    to the accumulated text, where keeping and replacing give the same
    text.  The artifact the job then publishes is parsed from the text so
    chosen. *)
Theorem C4_result_preference (responseText : string) (msg : ProviderMessage) (r : string) :
  msg_type msg = "result" → subtype msg = Some "success" → result msg = Some r →
  (String_length responseText < String_length r → consume responseText msg = r)
  ∧ (String_length r ≤ String_length responseText →
       consume responseText msg = responseText)
  ∧ (consume responseText msg = r
     ↔ String_length responseText < String_length r ∨ r = responseText)
  ∧ ∀ s tid t,
      tasks s !! tid = Some t → at_ t = AwaitNext responseText [msg] →
      aborted (controller t) s = false → stream_failure (answers t) = None →
      bus (resume tid (resume tid s))
      = bus s ++ [(channel,
                   backlog_modify_complete
                     (parseModifyResponse
                        (if Nat.ltb (String_length responseText) (String_length r)
                         then r else responseText)))].
Proof.
  intros Htype Hsub Hres.
  pose proof (consume_result responseText msg r Htype Hsub Hres) as Hc.
  split; [|split; [|split]].
  - intros Hlt. rewrite Hc. by apply Nat.ltb_lt in Hlt as ->.
  - intros Hle. rewrite Hc. by apply Nat.ltb_ge in Hle as ->.
  - rewrite Hc.
    destruct (Nat.ltb_spec (String_length responseText) (String_length r)) as [Hlt|Hle].
    + split; [by left|done].
    + split; [by right|]. intros [Hlt| ->]; [lia|done].
  - intros s tid t Hlook Hat Hab Hok.
    rewrite (resume_next _ _ _ _ _ _ Hlook Hat Hab), Hc.
    erewrite resume_end; [done|by eapply lookup_set_task|done|done].
Qed.


(** *** Outcomes of a job *)

(** C8 (amended).  When the loop takes a message and finds the controller
    signalled, it consumes nothing more and the job fails with
    Error('Generation aborted'): every event published for it is a
    backlog_modify_error with the message 'Generation aborted', the event
    kind under which any error thrown by the provider's stream is
    published with its own message. *)
Theorem C8_abort_is_published_as_an_error (s : Server) (tid : nat) (t : Task)
    (responseText : string) (msg : ProviderMessage) (rest : list ProviderMessage) :
  tasks s !! tid = Some t → at_ t = AwaitNext responseText (msg :: rest) →
  aborted (controller t) s = true →
  (tasks (resume tid s) !! tid
   = Some (suspend_at (AwaitClose (ErrorObject "Generation aborted")) t)
   ∧ bus (resume tid s) = bus s)
  ∧ (tasks (resume tid (resume tid s)) !! tid
     = Some (suspend_at (Returned (Rejected (ErrorObject "Generation aborted"))) t)
     ∧ ∃ evs, bus (resume tid (resume tid s)) = bus s ++ evs ∧ evs ≠ []
              ∧ ∀ e, e ∈ evs → e = (channel, backlog_modify_error "Generation aborted"))
  ∧ (∀ s0 tid0 t0 text0 error,
       tasks s0 !! tid0 = Some t0 → at_ t0 = AwaitNext text0 [] →
       stream_failure (answers t0) = Some error →
       ∃ evs, bus (resume tid0 s0) = bus s0 ++ evs ∧ evs ≠ []
              ∧ ∀ e, e ∈ evs → e = (channel, backlog_modify_error (getErrorMessage error))).
Proof.
  intros Hlook Hat Hab.
  rewrite (resume_abort_seen _ _ _ _ _ _ Hlook Hat Hab).
  split; [|split].
  - split; [by eapply lookup_set_task|done].
  - erewrite resume_throws; [|by eapply lookup_set_task|by left].
    split.
    + simpl. rewrite list_insert_insert_eq.
      apply list_lookup_insert_eq. by eapply lookup_lt_Some.
    + simpl. rewrite <- app_assoc. eexists. split; [reflexivity|]. split; [done|].
      intros e He. apply elem_of_cons in He as [->|He]; [done|].
      by apply list_elem_of_singleton in He as ->.
  - intros s0 tid0 t0 text0 error Hl0 Hat0 Hf0.
    erewrite resume_throws; [|done|right; eauto].
    simpl. rewrite <- app_assoc. eexists. split; [reflexivity|]. split; [done|].
    intros e He. apply elem_of_cons in He as [->|He]; [done|].
    by apply list_elem_of_singleton in He as ->.
Qed.

(** C2 (what the code does).  A resumption that makes a job fail
    publishes the backlog_modify_error event twice: once from the catch
    block of [generateBacklogModify] and once more from the [.catch]
    chained on the call by the POST /generate handler. *)
Theorem C2_failed_job_publishes_two_error_events (s : Server) (tid : nat)
    (t t' : Task) (error : Thrown) :
  tasks s !! tid = Some t → settled t = false →
  tasks (resume tid s) !! tid = Some t' → at_ t' = Returned (Rejected error) →
  bus (resume tid s)
  = bus s ++ [(channel, backlog_modify_error (getErrorMessage error));
              (channel, backlog_modify_error (getErrorMessage error))].
Proof.
  intros Hlook Hs Hlook' Hat'.
  rewrite (resume_lookup _ _ _ Hlook Hs) in Hlook'.
  injection Hlook' as <-. simpl in Hat'.
  pose proof (resume_bus _ _ _ Hlook Hs) as H. rewrite Hat' in H. by destruct H.
Qed.

Lemma generateBacklogModify_progress t s :
  settled t = false →
  steps_left (suspend_at (generateBacklogModify t s).2 t) < steps_left t.
Proof.
  unfold settled, steps_left. simpl.
  gen_cases t; intros Hs; try discriminate; simpl; lia.
Qed.

Lemma resume_settles tid n :
  ∀ s t,
    tasks s !! tid = Some t → settled t = false → steps_left t ≤ n →
    ∃ k t', k ≤ n
            ∧ tasks (Nat.iter k (resume tid) s) !! tid = Some t'
            ∧ settled t' = true
            ∧ isRunning (Nat.iter k (resume tid) s) = false
            ∧ currentAbortController (Nat.iter k (resume tid) s) = None.
Proof.
  induction n as [|n IH]; intros s t Hlook Hs Hn.
  { pose proof (generateBacklogModify_progress t s Hs). lia. }
  pose proof (resume_lookup _ _ _ Hlook Hs) as Hlook1.
  pose proof (generateBacklogModify_progress t s Hs) as Hlt.
  pose proof (resume_bus _ _ _ Hlook Hs) as Hbus.
  set (t1 := suspend_at (generateBacklogModify t s).2 t) in *.
  destruct (settled t1) eqn:Hs1.
  - exists 1, t1. simpl. split; [lia|]. split; [done|]. split; [done|].
    unfold settled in Hs1. subst t1. simpl in Hs1.
    destruct (generateBacklogModify t s).2 as [| | | | | |[r|e]]; try discriminate;
      by destruct Hbus as (? & ? & ?).
  - destruct (IH (resume tid s) t1 Hlook1 Hs1 ltac:(lia)) as (k & t' & Hk & H).
    exists (S k), t'. rewrite Nat.iter_succ_r. split; [lia|done].
Qed.

(** C7.  Whenever a resumption of a background task makes it return, by
    completion, by an error thrown by a collaborator or by the provider's
    stream, by abort, or after a parse failure, the state it leaves has
    the running flag false and no stored controller; and a task that is
    resumed as often as it has steps left does return, leaving the flag
    false and the controller cleared. *)
Theorem C7_running_state_is_cleared (s : Server) (tid : nat) (t : Task) :
  tasks s !! tid = Some t → settled t = false →
  (∀ t', tasks (resume tid s) !! tid = Some t' → settled t' = true →
     isRunning (resume tid s) = false ∧ currentAbortController (resume tid s) = None)
  ∧ ∃ k t', k ≤ steps_left t
            ∧ tasks (Nat.iter k (resume tid) s) !! tid = Some t'
            ∧ settled t' = true
            ∧ isRunning (Nat.iter k (resume tid) s) = false
            ∧ currentAbortController (Nat.iter k (resume tid) s) = None.
Proof.
  intros Hlook Hs. split.
  - intros t' Hlook' Hs'. rewrite (resume_lookup _ _ _ Hlook Hs) in Hlook'.
    injection Hlook' as <-. unfold settled in Hs'. simpl in Hs'.
    pose proof (resume_bus _ _ _ Hlook Hs) as H.
    destruct (generateBacklogModify t s).2 as [| | | | | |[r|e]]; try discriminate;
      by destruct H as (? & ? & ?).
  - by apply (resume_settles tid (steps_left t) s t).
Qed.

End Properties.

(** ** The properties on the sample runs *)

Lemma C1_request_without_prompt_is_refused :
  isRunning initial = false
  ∧ createGenerateHandler Demo.body_without_prompt (Demo.answering [] None) initial
    = (initial, json_error 400 "prompt required")
  ∧ ¬ (success (createGenerateHandler Demo.body_without_prompt
                  (Demo.answering [] None) initial).2 = true
       ∧ isRunning (createGenerateHandler Demo.body_without_prompt
                      (Demo.answering [] None) initial).1 = true).
Proof. split; [done|]. split; [done|]. intros [H _]. discriminate H. Qed.

Lemma C1_sample_admission :
  (∃ task,
     createGenerateHandler Demo.body ab_stream initial
     = ({| isRunning := true; currentAbortController := Some 0; controllers := [false];
           bus := []; queries := []; tasks := [task] |}, json_ok)
     ∧ at_ task = AwaitFeatures ∧ controller task = 0 ∧ answers task = ab_stream)
  ∧ createGenerateHandler Demo.body ab_stream (Demo.started ab_stream)
    = (Demo.started ab_stream,
       json_error 200 "Backlog modify generation is already running").
Proof.
  split.
  - apply (C1_single_flight_admission Demo.body ab_stream initial); reflexivity.
  - apply (C1_single_flight_admission Demo.body ab_stream (Demo.started ab_stream));
      reflexivity.
Defined.

Lemma C6_sample_stop :
  aborted 0 (createStopHandler (Demo.started ab_stream)).1 = true
  ∧ isRunning (createStopHandler (Demo.started ab_stream)).1 = false
  ∧ currentAbortController (createStopHandler (Demo.started ab_stream)).1 = None
  ∧ createStopHandler (createStopHandler (Demo.started ab_stream)).1
    = ((createStopHandler (Demo.started ab_stream)).1, json_message "No generation running")
  ∧ createStopHandler ab_finished = (ab_finished, json_message "No generation running").
Proof.
  destruct (C6_stop_is_idempotent (Demo.started ab_stream))
    as (_ & _ & _ & _ & Hstored & Htwice).
  assert (Hc : currentAbortController (Demo.started ab_stream) = Some 0)
    by reflexivity.
  destruct (Hstored 0 Hc) as (_ & _ & Hsignalled & Hflag & Hcleared).
  destruct (C6_stop_is_idempotent ab_finished) as (_ & _ & _ & Hnone & _).
  split; [apply Hsignalled; simpl; lia|].
  split; [exact Hflag|]. split; [exact Hcleared|].
  split; [exact Htwice|]. apply Hnone. reflexivity.
Defined.

Lemma C9_sample_queries :
  Forall (λ q, readOnly q.2 = true ∧ allowedTools q.2 = []) (queries ab_finished)
  ∧ length (queries ab_finished) = 1.
Proof.
  split; [|reflexivity]. apply Forall_forall. intros [provider options] Hin.
  refine (proj2 C9_queries_are_read_only_and_tool_free ab_finished _ provider options Hin).
  do 2 apply reachable_run. apply reachable_initial.
Defined.

Lemma C10_sample_plan :
  changes (parseModifyResponse "PLAN") = [("update", "f1")]
  ∧ updates_only (parseModifyResponse "PLAN")
  ∧ updates_only (parseModifyResponse "ab").
Proof.
  destruct C10_artifacts_hold_updates_only as (Hall & Hparsed & Hbus).
  split; [exact (Hparsed "PLAN" _ eq_refl)|]. split; [apply Hall|].
  apply (Hbus ab_finished); [do 2 apply reachable_run; apply reachable_initial|].
  assert (Hlast : last (bus ab_finished)
                  = Some (channel, backlog_modify_complete (parseModifyResponse "ab")))
    by reflexivity.
  apply last_Some in Hlast as [before ->].
  apply elem_of_app. right. apply list_elem_of_here.
Defined.

Lemma C5_sample_empty_response :
  parseModifyResponse EmptyString = degenerate
  ∧ bus (resume 0 (Demo.started (Demo.answering [] None)))
    = bus (Demo.started (Demo.answering [] None))
      ++ [(channel, backlog_modify_complete degenerate)].
Proof.
  destruct (C5_parse_failure_is_a_completion (Ext := Demo.externals) EmptyString eq_refl)
    as [Hparse Hjob].
  split; [exact Hparse|].
  apply (Hjob (Demo.started (Demo.answering [] None)) 0
           (job (Demo.answering [] None) (AwaitNext EmptyString []))).
  - reflexivity.
  - reflexivity.
  - reflexivity.
Defined.

Lemma C4_sample_preference :
  consume "ab" (Demo.result_success "abcdef") = "abcdef"
  ∧ consume "abcdef" (Demo.result_success "ab") = "abcdef"
  ∧ consume "ab" (Demo.result_success "cd") = "ab"
  ∧ String_length "日本" = 2
  ∧ consume "abc" (Demo.result_success "日本") = "abc".
Proof.
  split; [|split; [|split; [|split; [reflexivity|]]]].
  - apply (C4_result_preference "ab" (Demo.result_success "abcdef") "abcdef");
      try reflexivity; simpl; lia.
  - apply (C4_result_preference "abcdef" (Demo.result_success "ab") "ab");
      try reflexivity; simpl; lia.
  - apply (C4_result_preference "ab" (Demo.result_success "cd") "cd");
      try reflexivity; simpl; lia.
  - apply (C4_result_preference "abc" (Demo.result_success "日本") "日本");
      try reflexivity; simpl; lia.
Defined.



Lemma C8_cancelled_job_is_published_like_a_crash :
  aborted 0 stopped = true
  ∧ (channel, backlog_modify_error "Generation aborted") ∈ bus cancelled
  ∧ bus cancelled = bus (crashed "Generation aborted").
Proof.
  split; [reflexivity|]. split; [|reflexivity].
  assert (Hlast : last (bus cancelled)
                  = Some (channel, backlog_modify_error "Generation aborted"))
    by reflexivity.
  apply last_Some in Hlast as [before ->].
  apply elem_of_app. right. apply list_elem_of_here.
Qed.

Lemma C8_sample_abort :
  tasks (resume 0 (resume 0 stopped)) !! 0
  = Some (job (Demo.answering [Demo.assistant "a"] None)
            (Returned (Rejected (ErrorObject "Generation aborted"))))
  ∧ ∃ evs, bus (resume 0 (resume 0 stopped)) = bus stopped ++ evs ∧ evs ≠ []
           ∧ ∀ e, e ∈ evs → e = (channel, backlog_modify_error "Generation aborted").
Proof.
  apply (C8_abort_is_published_as_an_error stopped 0
           (job (Demo.answering [Demo.assistant "a"] None)
              (AwaitNext EmptyString [Demo.assistant "a"]))
           EmptyString (Demo.assistant "a") []).
  - reflexivity.
  - reflexivity.
  - reflexivity.
Defined.

Lemma C2_sample_crash :
  bus (resume 0 (crashing "spawn cursor-agent ENOENT"))
  = bus (crashing "spawn cursor-agent ENOENT")
    ++ [(channel, backlog_modify_error "spawn cursor-agent ENOENT");
        (channel, backlog_modify_error "spawn cursor-agent ENOENT")]
  ∧ length (filter (λ e, terminal e = true) (bus (crashed "spawn cursor-agent ENOENT"))) = 2.
Proof.
  split; [|reflexivity].
  apply (C2_failed_job_publishes_two_error_events
           (crashing "spawn cursor-agent ENOENT") 0
           (job (Demo.answering [] (Some (ErrorObject "spawn cursor-agent ENOENT")))
              (AwaitNext EmptyString []))
           (job (Demo.answering [] (Some (ErrorObject "spawn cursor-agent ENOENT")))
              (Returned (Rejected (ErrorObject "spawn cursor-agent ENOENT"))))
           (ErrorObject "spawn cursor-agent ENOENT")).
  - reflexivity.
  - reflexivity.
  - reflexivity.
  - reflexivity.
Defined.

Lemma C7_sample_cleanup :
  (isRunning (Demo.started (Demo.answering [] None)) = true
   ∧ isRunning (resume 0 (Demo.started (Demo.answering [] None))) = false
   ∧ currentAbortController (resume 0 (Demo.started (Demo.answering [] None))) = None)
  ∧ ∃ k t', k ≤ 5
            ∧ tasks (Nat.iter k (resume 0) (Demo.started ab_stream)) !! 0 = Some t'
            ∧ settled t' = true
            ∧ isRunning (Nat.iter k (resume 0) (Demo.started ab_stream)) = false
            ∧ currentAbortController (Nat.iter k (resume 0) (Demo.started ab_stream)) = None.
Proof.
  split.
  - split; [reflexivity|].
    apply (proj1 (C7_running_state_is_cleared (Demo.started (Demo.answering [] None)) 0
                    (job (Demo.answering [] None) (AwaitNext EmptyString []))
                    eq_refl eq_refl)
             (job (Demo.answering [] None) (Returned (Fulfilled degenerate)))).
    + reflexivity.
    + reflexivity.
  - apply (proj2 (C7_running_state_is_cleared (Demo.started ab_stream) 0
                    (job ab_stream (AwaitNext EmptyString (stream_messages ab_stream)))
                    eq_refl eq_refl)).
Defined.

(** After a stop the flag is clear although the stopped task has not
    returned yet, so a new start is admitted next to it; when the stopped
    task then finds its signal and fails, its cleanup clears the running
    state of the newer job, whose task is still suspended. *)
Example stopped_task_clears_the_state_of_a_newer_job :
  (isRunning restarted = true ∧ currentAbortController restarted = Some 1
   ∧ length (tasks restarted) = 2)
  ∧ tasks overtaken !! 0
    = Some (job ab_stream (Returned (Rejected (ErrorObject "Generation aborted"))))
  ∧ tasks overtaken !! 1
    = Some {| projectPath := "/repo"; prompt := "raise priorities"; model := None;
              controller := 1; answers := ab_stream; at_ := AwaitFeatures |}
  ∧ isRunning overtaken = false ∧ currentAbortController overtaken = None.
Proof. repeat split; reflexivity. Qed.

(** ** What the runs of the server keep true *)

Section ServerInvariants.
Context `{Ext : Externals}.

Ltac task_cases t :=
  unfold generateBacklogModify, failed;
  destruct (at_ t) as [|features|sysP usrP|sysP usrP eff th|txt [|msg rest]|err|out];
  repeat match goal with
    | |- context [match ?x with Fulfilled _ => _ | Rejected _ => _ end] => destruct x
    | |- context [if truthy ?x then _ else _] => destruct (truthy x)
    | |- context [if aborted ?c ?s then _ else _] => destruct (aborted c s)
    | |- context [match stream_failure ?a with Some _ => _ | None => _ end] =>
        destruct (stream_failure a)
    end.

(** What one resumption of an unsettled task does to the server, by the
    point the task reaches. *)
Lemma resume_effect s tid t :
  tasks s !! tid = Some t → settled t = false →
  ∃ s1,
    resume tid s
    = set_tasks (<[tid := suspend_at (generateBacklogModify t s).2 t]> (tasks s)) s1
    ∧ match (generateBacklogModify t s).2 with
      | Returned (Fulfilled r) =>
          s1 = setRunningState false (Some None) (emit (backlog_modify_complete r) s)
      | Returned (Rejected e) =>
          s1 = setRunningState false (Some None)
                 (emit (backlog_modify_error (getErrorMessage e))
                    (emit (backlog_modify_error (getErrorMessage e)) s))
      | AwaitNext responseText rest =>
          s1 = s
          ∨ ∃ sysPrompt userPrompt effectiveModel thinking autoLoad,
              at_ t = AwaitAutoLoad sysPrompt userPrompt effectiveModel thinking
              ∧ s1 = set_queries
                       (queries s
                        ++ [(getProviderForModel effectiveModel,
                             executeOptions t sysPrompt userPrompt effectiveModel
                               thinking autoLoad)]) s
      | AwaitClose _ => s1 = s
      | _ => s1 = s ∨ ∃ c, s1 = emit (backlog_modify_progress c) s
      end.
Proof.
  intros Hlook Hs. unfold resume. rewrite Hlook, Hs. unfold settled in Hs. revert Hs.
  task_cases t; intros Hs; try discriminate Hs;
    (eexists; split; [reflexivity|]); cbn [snd]; eauto 10.
Qed.


Lemma generateBacklogModify_keeps_model t s :
  model_respected t → model_respected (suspend_at (generateBacklogModify t s).2 t).
Proof.
  unfold model_respected, resolved_for. simpl.
  destruct (at_ t) as [|features|sysP usrP|sysP usrP eff th|txt [|msg rest]|err|out] eqn:Hat;
    unfold generateBacklogModify, failed; rewrite Hat; simpl; intros Hm;
    repeat match goal with
      | |- context [match ?x with Fulfilled _ => _ | Rejected _ => _ end] =>
          destruct x eqn:?
      | |- context [if truthy ?x then _ else _] => destruct (truthy x) eqn:?
      | |- context [if aborted ?c ?s then _ else _] => destruct (aborted c s)
      | |- context [match stream_failure ?a with Some _ => _ | None => _ end] =>
          destruct (stream_failure a)
      end; simpl; try done; try congruence.
  all: eexists; split; [done|]; by destruct (resolvePhaseModel _).
Qed.

Lemma generateBacklogModify_after_query t s :
  before_query t = false → before_query (suspend_at (generateBacklogModify t s).2 t) = false.
Proof. unfold before_query. simpl. task_cases t; done. Qed.

Lemma createGenerateHandler_cases body ans s :
  createGenerateHandler body ans s = (s, (createGenerateHandler body ans s).2)
  ∨ (isRunning s = false
     ∧ ∃ task,
         at_ task = AwaitFeatures ∧ controller task = length (controllers s)
         ∧ (createGenerateHandler body ans s).1
           = {| isRunning := true;
                currentAbortController := Some (length (controllers s));
                controllers := controllers s ++ [false];
                bus := bus s; queries := queries s; tasks := tasks s ++ [task] |}).
Proof.
  unfold createGenerateHandler, getBacklogModifyStatus.
  destruct (truthy (body_projectPath body)), (truthy (body_prompt body)),
    (isRunning s); simpl; try by left.
  right. split; [done|]. eexists. refine (conj _ (conj _ eq_refl)); reflexivity.
Qed.

Lemma Inv_initial : Inv initial.
Proof. split; simpl; try done; intros *; by rewrite ?lookup_nil. Qed.

Lemma Inv_generate body ans s : Inv s → Inv (createGenerateHandler body ans s).1.
Proof.
  intros HI. destruct (createGenerateHandler_cases body ans s) as [->|(Hidle & task & Hat & Hc & ->)];
    [done|].
  destruct HI as [Hflag Hlive Halloc Hdist Hmodel Hq Honce].
  split; simpl.
  - split; [done|]. by rewrite lookup_app_r, Nat.sub_diag.
  - intros c [= <-]. exists task. rewrite last_snoc. repeat split; [done|].
    unfold settled. by rewrite Hat.
  - intros i t Hl. rewrite length_app. simpl.
    apply lookup_app_Some in Hl as [Hl|[_ Hl]].
    + apply Halloc in Hl. lia.
    + apply list_lookup_singleton_Some in Hl as [_ <-]. lia.
  - intros i j t u Hi Hj Heq.
    apply lookup_app_Some in Hi as [Hi|[Hge Hi]];
      apply lookup_app_Some in Hj as [Hj|[Hge' Hj]].
    + eauto.
    + apply list_lookup_singleton_Some in Hj as [_ <-]. apply Halloc in Hi. lia.
    + apply list_lookup_singleton_Some in Hi as [_ <-]. apply Halloc in Hj. lia.
    + apply list_lookup_singleton_Some in Hi as [Hi _].
      apply list_lookup_singleton_Some in Hj as [Hj _]. lia.
  - intros i t Hl. apply lookup_app_Some in Hl as [Hl|[_ Hl]]; [eauto|].
    apply list_lookup_singleton_Some in Hl as [_ <-]. unfold model_respected. by rewrite Hat.
  - intros k q Hk. destruct (Hq k q Hk) as (i & t & Hl & Hrest).
    exists i, t. split; [|done]. by apply lookup_app_l_Some.
  - done.
Qed.

Lemma Inv_stop s : Inv s → Inv (createStopHandler s).1.
Proof.
  intros [Hflag Hlive Halloc Hdist Hmodel Hq Honce].
  unfold createStopHandler, getAbortController.
  destruct (currentAbortController s) as [c|] eqn:Hc; simpl.
  - split; simpl; try done. intros i t Hl. rewrite length_insert. eauto.
  - split; simpl; try done; by rewrite Hc.
Qed.

Lemma Inv_resume tid s : Inv s → Inv (resume tid s).
Proof.
  intros HI. destruct (resume_cases s tid) as [->|(t & Hlook & Hs)]; [done|].
  destruct (resume_effect s tid t Hlook Hs) as (s1 & -> & Hs1).
  pose proof (generateBacklogModify_keeps_model t s) as Hkeep.
  pose proof (generateBacklogModify_after_query t s) as Hafter.
  destruct HI as [Hflag Hlive Halloc Hdist Hmodel Hq Honce].
  set (pc := (generateBacklogModify t s).2) in *.
  assert (Htasks : ∀ i u, <[tid := suspend_at pc t]> (tasks s) !! i = Some u →
            ∃ u0, tasks s !! i = Some u0 ∧ controller u = controller u0
                  ∧ projectPath u = projectPath u0 ∧ model u = model u0
                  ∧ answers u = answers u0
                  ∧ (i ≠ tid → u = u0) ∧ (i = tid → u = suspend_at pc t ∧ u0 = t)).
  { intros i u Hu. apply list_lookup_insert_Some in Hu as [(<- & <- & _)|[Hne Hu]].
    - exists t. by repeat split.
    - exists u. by repeat split. }
  assert (Hsame : controllers s1 = controllers s ∧ (∃ extra, queries s1 = queries s ++ extra)).
  { destruct pc as [| | | | | |[r|e]]; try (destruct Hs1 as [->|Hs1]);
      try subst s1; simpl; try (split; [done|]; by exists []; rewrite app_nil_r).
    - destruct Hs1 as (c & ->). split; [done|]. by exists []; rewrite app_nil_r.
    - destruct Hs1 as (c & ->). split; [done|]. by exists []; rewrite app_nil_r.
    - destruct Hs1 as (c & ->). split; [done|]. by exists []; rewrite app_nil_r.
    - destruct Hs1 as (c & ->). split; [done|]. by exists []; rewrite app_nil_r.
    - destruct Hs1 as (? & ? & ? & ? & ? & _ & ->). split; [done|]. by eexists. }
  destruct Hsame as [Hctl Hqs].
  split; simpl.
  - (* flag *)
    destruct pc as [| | | | | |[r|e]]; try (destruct Hs1 as [->|Hs1]);
      try subst s1; simpl; try done;
      try (destruct Hs1 as (c & ->); done).
    by destruct Hs1 as (? & ? & ? & ? & ? & _ & ->).
  - (* live *)
    intros c Hc.
    assert (Hcur : currentAbortController s = Some c ∧ settled (suspend_at pc t) = false).
    { destruct pc as [| | | | | |[r|e]]; try (destruct Hs1 as [->|Hs1]);
        try subst s1; simpl in *; try done;
        try (destruct Hs1 as (? & ->); done).
      by destruct Hs1 as (? & ? & ? & ? & ? & _ & ->). }
    destruct Hcur as [Hcur Hun]. destruct (Hlive c Hcur) as (u & Hlast & Hcu & Hsu).
    rewrite last_lookup in Hlast. rewrite last_lookup, length_insert.
    destruct (decide (pred (length (tasks s)) = tid)) as [Heq|Hne].
    + rewrite Heq in Hlast |- *. rewrite Hlook in Hlast. injection Hlast as <-.
      exists (suspend_at pc t). rewrite list_lookup_insert_eq by (by eapply lookup_lt_Some).
      done.
    + exists u. by rewrite list_lookup_insert_ne.
  - (* allocated *)
    intros i u Hu. destruct (Htasks i u Hu) as (u0 & Hu0 & -> & _). rewrite Hctl. eauto.
  - (* distinct *)
    intros i j u v Hu Hv Heq.
    destruct (Htasks i u Hu) as (u0 & Hu0 & Hcu & _).
    destruct (Htasks j v Hv) as (v0 & Hv0 & Hcv & _).
    eapply Hdist; [done|done|congruence].
  - (* model *)
    intros i u Hu. destruct (Htasks i u Hu) as (u0 & Hu0 & _ & _ & _ & _ & Hne & Heq).
    destruct (decide (i = tid)) as [->|Hd].
    + destruct (Heq eq_refl) as [-> ->]. apply Hkeep. eauto.
    + rewrite (Hne Hd). eauto.
  - (* queries *)
    assert (Hold : ∀ k q, queries s !! k = Some q →
              ∃ i u, <[tid := suspend_at pc t]> (tasks s) !! i = Some u
                     ∧ before_query u = false ∧ query_of q u).
    { intros k q Hk. destruct (Hq k q Hk) as (i & u & Hu & Hbq & Hqo).
      destruct (decide (i = tid)) as [->|Hd].
      - rewrite Hlook in Hu. injection Hu as <-.
        exists tid, (suspend_at pc t).
        rewrite list_lookup_insert_eq by (by eapply lookup_lt_Some).
        split; [done|]. split; [by apply Hafter|done].
      - exists i, u. by rewrite list_lookup_insert_ne. }
    destruct pc as [| | | |txt rest| |[r|e]] eqn:Hpc; try (destruct Hs1 as [->|Hs1]);
      try subst s1; simpl; try done;
      try (destruct Hs1 as (c & ->); done).
    destruct Hs1 as (sysP & usrP & eff & th & al & Hat & ->). simpl.
    intros k q Hk. apply lookup_app_Some in Hk as [Hk|[_ Hk]]; [eauto|].
    apply list_lookup_singleton_Some in Hk as [_ <-].
    exists tid, (suspend_at (AwaitNext txt rest) t).
    rewrite list_lookup_insert_eq by (by eapply lookup_lt_Some).
    split; [done|]. split; [done|].
    pose proof (Hmodel tid t Hlook) as Hm. unfold model_respected in Hm. rewrite Hat in Hm.
    unfold query_of. simpl. repeat split; done.
  - (* once *)
    destruct pc as [| | | |txt rest| |[r|e]] eqn:Hpc; try (destruct Hs1 as [->|Hs1]);
      try subst s1; simpl; try done;
      try (destruct Hs1 as (c & ->); done).
    destruct Hs1 as (sysP & usrP & eff & th & al & Hat & ->). simpl.
    assert (Hfresh : ∀ k q, queries s !! k = Some q → abortController q.2 ≠ controller t).
    { intros k q Hk Heq. destruct (Hq k q Hk) as (i & u & Hu & Hbq & Hqo & _).
      assert (i = tid) as -> by (eapply Hdist; [done|done|congruence]).
      rewrite Hlook in Hu. injection Hu as <-.
      unfold before_query in Hbq. by rewrite Hat in Hbq. }
    intros k l q r Hk Hl Heq.
    apply lookup_app_Some in Hk as [Hk|[Hgk Hk]];
      apply lookup_app_Some in Hl as [Hl|[Hgl Hl]].
    + eauto.
    + apply list_lookup_singleton_Some in Hl as [_ <-]. by destruct (Hfresh k q Hk).
    + apply list_lookup_singleton_Some in Hk as [_ <-]. by destruct (Hfresh l r Hl).
    + apply list_lookup_singleton_Some in Hk as [Hk _].
      apply list_lookup_singleton_Some in Hl as [Hl _]. lia.
Qed.

Lemma reachable_Inv s : reachable s → Inv s.
Proof.
  revert s. apply reachable_ind; [apply Inv_initial|]. intros a s _ HI.
  destruct a as [body ans| | |tid]; simpl.
  - by apply Inv_generate.
  - by apply Inv_stop.
  - done.
  - by apply Inv_resume.
Qed.


Lemma resume_controllers s tid : controllers (resume tid s) = controllers s.
Proof.
  destruct (resume_cases s tid) as [->|(t & Hlook & Hs)]; [done|].
  destruct (resume_effect s tid t Hlook Hs) as (s1 & -> & Hs1). simpl.
  destruct (generateBacklogModify t s).2 as [| | | | | |[r|e]];
    try (destruct Hs1 as [->|Hs1]); try subst s1; simpl; try done;
    try (by destruct Hs1 as (c & ->)).
  by destruct Hs1 as (? & ? & ? & ? & ? & _ & ->).
Qed.

Lemma createStopHandler_tasks s : tasks (createStopHandler s).1 = tasks s.
Proof. unfold createStopHandler. by destruct (getAbortController s). Qed.

(** X1.  GET /status changes nothing and reports the running flag.
    On every run of the server the flag it reports is true exactly when a
    controller is stored; right after a POST /stop it reports false, and
    right after a POST /generate that carries projectPath and prompt it
    reports true, whether that request was admitted or refused as already
    running. *)
Theorem status_reports_the_running_flag (s : Server) :
  reachable s →
  createStatusHandler s
  = (s, {| res_status := 200; success := true; res_error := None; res_message := None;
           res_isRunning := Some (isRunning s) |})
  ∧ (isRunning s = true ↔ is_Some (currentAbortController s))
  ∧ res_isRunning (createStatusHandler (createStopHandler s).1).2 = Some false
  ∧ ∀ body ans,
      well_formed body = true →
      res_isRunning (createStatusHandler (createGenerateHandler body ans s).1).2 = Some true.
Proof.
  intros Hs. pose proof (inv_flag s (reachable_Inv s Hs)) as Hflag.
  split; [done|]. split; [|split].
  - destruct (currentAbortController s) as [c|].
    + destruct Hflag as [-> _]. split; [by eexists|done].
    + rewrite Hflag. split; [done|]. by intros [? ?].
  - unfold createStatusHandler, getBacklogModifyStatus, createStopHandler, getAbortController.
    simpl. destruct (currentAbortController s); simpl; [done|by rewrite Hflag].
  - intros body ans Hwf. unfold well_formed in Hwf. apply andb_true_iff in Hwf as [Hp Hq].
    unfold createStatusHandler, createGenerateHandler, getBacklogModifyStatus. simpl.
    rewrite Hp, Hq. simpl. by destruct (isRunning s) eqn:Hr; simpl; rewrite ?Hr.
Qed.

(** X2.  On every run of the server, while the running flag is true the
    stored controller has not been signalled and is the controller of the
    most recently started job, whose task has not returned. *)
Theorem running_flag_has_a_live_job (s : Server) :
  reachable s → isRunning s = true →
  ∃ c t, currentAbortController s = Some c
         ∧ aborted c s = false
         ∧ last (tasks s) = Some t ∧ controller t = c ∧ settled t = false.
Proof.
  intros Hs Hrun. pose proof (reachable_Inv s Hs) as HI.
  pose proof (inv_flag s HI) as Hflag. pose proof (inv_live s HI) as Hlive.
  destruct (currentAbortController s) as [c|]; [|congruence].
  destruct Hflag as [_ Hc]. destruct (Hlive c eq_refl) as (t & Hlast & Hct & Hst).
  exists c, t. unfold aborted. by rewrite Hc.
Qed.

(** X3.  On every run of the server each job has a controller of its
    own, created for it: two different tasks never share a controller, and
    a POST /stop leaves the controllers of all tasks but the most recent
    one as they were. *)
Theorem jobs_have_controllers_of_their_own (s : Server) :
  reachable s →
  (∀ i j t u, tasks s !! i = Some t → tasks s !! j = Some u → i ≠ j →
              controller t ≠ controller u)
  ∧ (∀ i t, tasks s !! i = Some t → is_Some (controllers s !! controller t))
  ∧ (∀ i t, tasks s !! i = Some t → S i < length (tasks s) →
            aborted (controller t) (createStopHandler s).1 = aborted (controller t) s).
Proof.
  intros Hs. pose proof (reachable_Inv s Hs) as HI. split; [|split].
  - intros i j t u Hi Hj Hne Heq. apply Hne. by eapply (inv_distinct s HI).
  - intros i t Hi. apply lookup_lt_is_Some. by eapply (inv_allocated s HI).
  - intros i t Hi Hlt. unfold createStopHandler, getAbortController.
    destruct (currentAbortController s) as [c|] eqn:Hc; [|done].
    destruct (inv_live s HI c Hc) as (u & Hlast & Hcu & _).
    rewrite last_lookup in Hlast.
    assert (controller t ≠ c) as Hne.
    { intros Heq. assert (i = pred (length (tasks s))); [|lia].
      eapply (inv_distinct s HI); [done|done|congruence]. }
    unfold aborted. simpl. by rewrite list_lookup_insert_ne.
Qed.

Lemma step_keeps_signal a s c : aborted c s = true → aborted c (step a s) = true.
Proof.
  unfold aborted. destruct (controllers s !! c) as [b|] eqn:Hc; [|done]. intros ->.
  destruct a as [body ans| | |tid]; simpl.
  - destruct (createGenerateHandler_cases body ans s) as [->|(_ & task & _ & _ & ->)];
      simpl; [by rewrite Hc|]. by rewrite (lookup_app_l_Some _ _ _ _ Hc).
  - unfold createStopHandler, getAbortController.
    destruct (currentAbortController s) as [c'|]; simpl; [|by rewrite Hc].
    destruct (decide (c' = c)) as [->|Hne].
    + by rewrite list_lookup_insert_eq by (by eapply lookup_lt_Some).
    + by rewrite list_lookup_insert_ne, Hc.
  - by rewrite Hc.
  - by rewrite resume_controllers, Hc.
Qed.

(** X4.  A controller that has been signalled stays signalled: no
    request and no resumption of a task resets it. *)
Theorem signalled_controller_stays_signalled (actions : list Action) (s : Server) (c : nat) :
  aborted c s = true → aborted c (run actions s) = true.
Proof.
  revert s. induction actions as [|a actions IH]; intros s Hc; [done|].
  apply (IH (step a s)). by apply step_keeps_signal.
Qed.

(** X5.  On every run of the server no two [executeQuery] calls carry
    the same controller, every call carries the controller of a task that
    is past its four awaits, and so there are at most as many calls as
    jobs: a job queries the provider at most once. *)
Theorem a_job_queries_the_provider_at_most_once (s : Server) :
  reachable s →
  (∀ k l q r, queries s !! k = Some q → queries s !! l = Some r →
              abortController q.2 = abortController r.2 → k = l)
  ∧ (∀ k q, queries s !! k = Some q →
            ∃ i t, tasks s !! i = Some t ∧ controller t = abortController q.2
                   ∧ before_query t = false)
  ∧ length (queries s) ≤ length (tasks s).
Proof.
  intros Hs. pose proof (reachable_Inv s Hs) as HI. split; [|split].
  - apply (inv_once s HI).
  - intros k q Hk. destruct (inv_queries s HI k q Hk) as (i & t & Hi & Hb & Hq & _).
    by exists i, t.
  - rewrite <- (length_fmap (λ q : Provider * ExecuteOptions, abortController q.2) (queries s)).
    rewrite <- (length_fmap controller (tasks s)).
    apply submseteq_length, NoDup_submseteq.
    + apply NoDup_alt. intros k l c Hk Hl.
      rewrite list_lookup_fmap in Hk, Hl.
      destruct (queries s !! k) as [q|] eqn:Hqk; [|done].
      destruct (queries s !! l) as [r|] eqn:Hql; [|done].
      simpl in *. eapply (inv_once s HI); [done|done|congruence].
    + intros c Hc. apply list_elem_of_fmap in Hc as (q & -> & Hq).
      apply list_elem_of_lookup in Hq as [k Hk].
      destruct (inv_queries s HI k q Hk) as (i & t & Hi & _ & Hc & _).
      apply list_elem_of_fmap. exists t. split; [done|]. by eapply list_elem_of_lookup_2.
Qed.


Lemma consume_ignored responseText msg : ignored msg → consume responseText msg = responseText.
Proof.
  intros [Hna Hnr]. unfold consume.
  destruct (String.eqb_spec (msg_type msg) "assistant") as [|_]; [done|].
  destruct (String.eqb_spec (msg_type msg) "result") as [Hr|_]; [|done].
  destruct (bool_decide_reflect (subtype msg = Some "success")) as [Hsub|_]; [|done].
  destruct (truthy (result msg)) eqn:Ht; [|done].
  by destruct Hnr as [?|[?|?]].
Qed.

(** X8.  The loop takes a message that is neither an assistant
    message nor a result of subtype 'success' with a non-empty result
    without touching the accumulated text; this includes messages of type
    'error' and results of subtype 'error'.  A job whose stream holds only
    such messages and ends normally is published as completed, with the
    artifact parsed from the text accumulated before them. *)
Theorem other_messages_do_not_fail_the_job (s : Server) (tid : nat) (t : Task)
    (responseText : string) (msgs : list ProviderMessage) :
  tasks s !! tid = Some t → at_ t = AwaitNext responseText msgs →
  Forall ignored msgs → aborted (controller t) s = false →
  stream_failure (answers t) = None →
  foldl consume responseText msgs = responseText
  ∧ bus (Nat.iter (S (length msgs)) (resume tid) s)
    = bus s ++ [(channel, backlog_modify_complete (parseModifyResponse responseText))].
Proof.
  intros Hlook Hat Hall Hab Hok.
  assert (Hfold : foldl consume responseText msgs = responseText).
  { clear Hat. induction Hall as [|msg msgs Hm _ IH]; [done|].
    simpl. by rewrite (consume_ignored _ _ Hm). }
  split; [done|].
  rewrite <- (app_nil_r msgs) in Hat.
  destruct (resume_messages tid t msgs s responseText [] Hlook Hat Hab)
    as (Hl & Hb & _).
  simpl. erewrite resume_end; [|exact Hl|by rewrite Hfold|done].
  simpl. by rewrite Hb.
Qed.

(** One resumption of a task that is not about to take a message reads
    no abort signal and writes none: it commutes with any change of the
    controllers. *)
Lemma resume_blind s tid t cs :
  tasks s !! tid = Some t → taking_message t = false →
  resume tid (set_controllers cs s) = set_controllers cs (resume tid s).
Proof.
  intros Hlook Hm. unfold resume, settled. simpl. rewrite Hlook.
  unfold taking_message in Hm. revert Hm.
  task_cases t; intros Hm; try discriminate Hm; reflexivity.
Qed.

Lemma resume_after_stop s tid t :
  tasks s !! tid = Some t → taking_message t = false →
  tasks (resume tid (createStopHandler s).1) = tasks (resume tid s)
  ∧ bus (resume tid (createStopHandler s).1) = bus (resume tid s)
  ∧ queries (resume tid (createStopHandler s).1) = queries (resume tid s).
Proof.
  intros Hlook Hm. unfold createStopHandler, getAbortController.
  destruct (currentAbortController s) as [c|]; [|done].
  unfold resume, settled. simpl. rewrite Hlook.
  unfold taking_message in Hm. revert Hm.
  task_cases t; intros Hm; try discriminate Hm; done.
Qed.

(** X9.  A POST /stop is noticed by a job only when it takes the
    next message from the stream.  At every other point (the four awaits
    before the query, the end of the stream, the close of the stream after
    an error) a resumption reads no abort signal: it commutes with any
    change of the controllers, and after a stop the task goes on, publishes
    and queries exactly as it would have without the stop.  So a job
    stopped while it waits for the autoLoadClaudeMd setting still calls
    [executeQuery], and a job stopped after its last message, whose stream
    then ends normally, is published as completed.  A job stopped while it
    waits for a message finds its signal when the message comes, consumes
    nothing and goes to close the stream with 'Generation aborted'. *)
Theorem stop_is_noticed_only_at_a_message (s : Server) (tid : nat) (t : Task) :
  tasks s !! tid = Some t →
  (taking_message t = false →
     (∀ cs, resume tid (set_controllers cs s) = set_controllers cs (resume tid s))
     ∧ tasks (resume tid (createStopHandler s).1) = tasks (resume tid s)
     ∧ bus (resume tid (createStopHandler s).1) = bus (resume tid s)
     ∧ queries (resume tid (createStopHandler s).1) = queries (resume tid s))
  ∧ (∀ sysPrompt userPrompt effectiveModel thinking autoLoad,
       at_ t = AwaitAutoLoad sysPrompt userPrompt effectiveModel thinking →
       getAutoLoadClaudeMdSetting (answers t) = Fulfilled autoLoad →
       queries (resume tid (createStopHandler s).1)
       = queries s
         ++ [(getProviderForModel effectiveModel,
              executeOptions t sysPrompt userPrompt effectiveModel thinking autoLoad)])
  ∧ (∀ responseText,
       at_ t = AwaitNext responseText [] → stream_failure (answers t) = None →
       bus (resume tid (createStopHandler s).1)
       = bus s ++ [(channel, backlog_modify_complete (parseModifyResponse responseText))])
  ∧ (∀ responseText msg rest,
       at_ t = AwaitNext responseText (msg :: rest) →
       currentAbortController s = Some (controller t) →
       controller t < length (controllers s) →
       tasks (resume tid (createStopHandler s).1) !! tid
       = Some (suspend_at (AwaitClose (ErrorObject "Generation aborted")) t)
       ∧ bus (resume tid (createStopHandler s).1) = bus s).
Proof.
  intros Hlook.
  assert (Hlook' : tasks (createStopHandler s).1 !! tid = Some t)
    by (by rewrite createStopHandler_tasks).
  destruct (createStopHandler_frame s) as (Hbus & Hq & _).
  split; [|split; [|split]].
  - intros Hm. split; [intros cs; by apply (resume_blind s tid t)|].
    by apply (resume_after_stop s tid t).
  - intros sysPrompt userPrompt effectiveModel thinking autoLoad Hat Hauto.
    unfold resume, settled, generateBacklogModify. rewrite Hlook', Hat, Hauto. simpl.
    by rewrite Hq.
  - intros responseText Hat Hok.
    rewrite (resume_end _ _ _ _ Hlook' Hat Hok). simpl. by rewrite Hbus.
  - intros responseText msg rest Hat Hcur Hlt.
    assert (Hab : aborted (controller t) (createStopHandler s).1 = true).
    { unfold createStopHandler, getAbortController. rewrite Hcur.
      unfold aborted. simpl. by rewrite list_lookup_insert_eq. }
    rewrite (resume_abort_seen _ _ _ _ _ _ Hlook' Hat Hab). simpl.
    split; [|done]. apply list_lookup_insert_eq. by eapply lookup_lt_Some.
Qed.

(** X10.  The cleanup of a returning task does not check whose state
    it clears: when the stored controller belongs to another job, a task
    that returns still sets the running flag to false and drops that
    controller, without signalling it. *)
Theorem cleanup_clears_the_state_of_another_job (s : Server) (tid : nat) (t t' : Task)
    (c : nat) :
  tasks s !! tid = Some t → settled t = false →
  currentAbortController s = Some c → c ≠ controller t →
  tasks (resume tid s) !! tid = Some t' → settled t' = true →
  isRunning (resume tid s) = false
  ∧ currentAbortController (resume tid s) = None
  ∧ aborted c (resume tid s) = aborted c s.
Proof.
  intros Hlook Hs _ _ Hlook' Hs'.
  rewrite (resume_lookup _ _ _ Hlook Hs) in Hlook'. injection Hlook' as <-.
  unfold settled in Hs'. simpl in Hs'.
  pose proof (resume_bus _ _ _ Hlook Hs) as H.
  unfold aborted. rewrite resume_controllers.
  destruct (generateBacklogModify t s).2 as [| | | | | |[r|e]]; try discriminate.
  - by destruct H as (_ & _ & -> & ->).
  - by destruct H as (_ & -> & ->).
Qed.

(** X11.  On every run of the server a POST /stop frees the scope at
    once: a POST /generate with projectPath and prompt that follows it is
    admitted and adds a task, whether or not the tasks started before have
    returned. *)
Theorem stop_frees_the_scope_at_once (s : Server) (body : GenerateBody) (ans : Answers) :
  reachable s → well_formed body = true →
  (createGenerateHandler body ans (createStopHandler s).1).2 = json_ok
  ∧ ∃ task, tasks (createGenerateHandler body ans (createStopHandler s).1).1
            = tasks s ++ [task]
            ∧ at_ task = AwaitFeatures.
Proof.
  intros Hs Hwf. pose proof (inv_flag s (reachable_Inv s Hs)) as Hflag.
  unfold well_formed in Hwf. apply andb_true_iff in Hwf as [Hp Hq].
  assert (Hidle : isRunning (createStopHandler s).1 = false).
  { unfold createStopHandler, getAbortController.
    destruct (currentAbortController s); simpl; done. }
  unfold createGenerateHandler, getBacklogModifyStatus. rewrite Hp, Hq, Hidle. simpl.
  split; [done|]. eexists. rewrite createStopHandler_tasks. split; reflexivity.
Qed.


Lemma length_filter_insert {A} (P : A → Prop) `{!∀ x, Decision (P x)} (l : list A) i x y :
  l !! i = Some x →
  length (filter P (<[i := y]> l)) + (if decide (P x) then 1 else 0)
  = length (filter P l) + (if decide (P y) then 1 else 0).
Proof.
  intros Hi. rewrite insert_take_drop by (by eapply lookup_lt_Some).
  rewrite <- (take_drop_middle l i x Hi) at 3.
  rewrite !filter_app, !filter_cons, !length_app.
  destruct (decide (P x)), (decide (P y)); simpl; lia.
Qed.

Lemma no_terminal_no_complete (evs : list (string * Payload)) :
  filter (λ e, terminal e = true) evs = [] → filter (λ e, is_complete e = true) evs = [].
Proof.
  induction evs as [|[ch p] evs IH]; [done|]. rewrite !filter_cons.
  destruct p; unfold terminal, is_complete; simpl; [by apply IH|done|done].
Qed.

(** X7.  On every run of the server the bus holds exactly as many
    backlog_modify_complete events as there are tasks that returned an
    artifact, the artifact of each such task is on the bus, and so is the
    error message of each task that failed: no job returns unannounced, and
    no completion is announced for a job that did not return one. *)
Theorem every_returned_job_is_announced (s : Server) :
  reachable s →
  length (filter (λ e, is_complete e = true) (bus s))
  = length (filter (λ t, fulfilled t = true) (tasks s))
  ∧ (∀ i t r, tasks s !! i = Some t → at_ t = Returned (Fulfilled r) →
              (channel, backlog_modify_complete r) ∈ bus s)
  ∧ (∀ i t e, tasks s !! i = Some t → at_ t = Returned (Rejected e) →
              (channel, backlog_modify_error (getErrorMessage e)) ∈ bus s).
Proof.
  revert s. apply reachable_ind.
  { split; [done|]. split; intros i t ? Hi; discriminate Hi. }
  intros a s _ (Hcount & Hok & Herr). destruct a as [body ans| | |tid]; simpl.
  - destruct (createGenerateHandler_cases body ans s) as [->|(_ & task & Hat & _ & ->)];
      [done|]. simpl. split; [|split].
    + rewrite filter_app, length_app, Hcount. unfold fulfilled.
      rewrite filter_cons, Hat. simpl. lia.
    + intros i t r Hi Ht. apply lookup_app_Some in Hi as [Hi|[_ Hi]]; [eauto|].
      apply list_lookup_singleton_Some in Hi as [_ <-]. congruence.
    + intros i t e Hi Ht. apply lookup_app_Some in Hi as [Hi|[_ Hi]]; [eauto|].
      apply list_lookup_singleton_Some in Hi as [_ <-]. congruence.
  - destruct (createStopHandler_frame s) as (-> & _ & ->). done.
  - done.
  - destruct (resume_cases s tid) as [->|(t & Hlook & Hs)]; [done|].
    pose proof (resume_bus _ _ _ Hlook Hs) as Hbus.
    pose proof (resume_task _ _ _ Hlook Hs) as Htasks.
    pose proof (length_filter_insert (λ t, fulfilled t = true) (tasks s) tid t
                  (suspend_at (generateBacklogModify t s).2 t) Hlook) as Hlen.
    rewrite Htasks.
    assert (Hunf : fulfilled t = false).
    { unfold settled in Hs. unfold fulfilled. by destruct (at_ t). }
    rewrite decide_False in Hlen by (by rewrite Hunf).
    assert (Hgrow : ∃ evs, bus (resume tid s) = bus s ++ evs
              ∧ length (filter (λ e, is_complete e = true) evs)
                = (if decide (fulfilled (suspend_at (generateBacklogModify t s).2 t) = true)
                   then 1 else 0)
              ∧ match (generateBacklogModify t s).2 with
                | Returned (Fulfilled r) => (channel, backlog_modify_complete r) ∈ evs
                | Returned (Rejected e) =>
                    (channel, backlog_modify_error (getErrorMessage e)) ∈ evs
                | _ => True
                end).
    { unfold fulfilled. simpl.
      destruct (generateBacklogModify t s).2 as [| | | | | |[r|e]];
        try (destruct Hbus as (evs & -> & Hevs); exists evs;
             by rewrite (no_terminal_no_complete evs Hevs)).
      - destruct Hbus as (_ & -> & _). eexists. split; [done|]. split; [done|].
        apply list_elem_of_here.
      - destruct Hbus as (-> & _). eexists. split; [done|]. split; [done|].
        apply list_elem_of_here. }
    destruct Hgrow as (evs & -> & Hevs & Hin).
    split; [|split].
    + rewrite filter_app, length_app, Hevs, Hcount. lia.
    + intros i u r Hi Hu. apply elem_of_app.
      apply list_lookup_insert_Some in Hi as [(<- & <- & _)|[_ Hi]]; [|left; eauto].
      simpl in Hu. rewrite Hu in Hin. by right.
    + intros i u e Hi Hu. apply elem_of_app.
      apply list_lookup_insert_Some in Hi as [(<- & <- & _)|[_ Hi]]; [|left; eauto].
      simpl in Hu. rewrite Hu in Hin. by right.
Qed.

(** X12.  Only features whose status is 'backlog' or 'in_progress'
    reach the prompt: a feature with any other status, or with none, can
    be dropped from the list without changing the text, and a list without
    an eligible feature gives the fixed sentence.  The text is otherwise
    made of the entries of the eligible features, in order, joined by blank
    lines; the entry of a feature that has dependencies ends with all of
    them, joined by ', ', and the entry of a feature without dependencies
    (none, or an empty list) has an empty last line before it is
    trimmed. *)
Theorem other_features_never_reach_the_prompt :
  (∀ before f after,
     ¬ eligible f →
     formatFeaturesForPrompt (before ++ f :: after) = formatFeaturesForPrompt (before ++ after))
  ∧ (∀ features,
       Forall (λ f, ¬ eligible f) features →
       formatFeaturesForPrompt features = "No features in backlog or in progress.")
  ∧ (∀ f features,
       eligible f →
       formatFeaturesForPrompt (f :: features)
       = join (nl +:+ nl) (formatFeature f :: (formatFeature <$> filter eligible features)))
  ∧ (∀ f,
       formatFeature f
       = String_trim
           ("- ID: " +:+ id f +:+ nl +:+
            "  Title: " +:+ (if truthy (title f) then interpolate (title f) else "Untitled")
              +:+ nl +:+
            "  Description: " +:+ description f +:+ nl +:+
            "  Category: " +:+ category f +:+ nl +:+
            "  Status: " +:+ interpolate (status f) +:+ nl +:+
            "  " +:+ (match priority f with
                      | Some p => "Priority: " +:+ Number_toString p
                      | None => EmptyString
                      end) +:+ nl +:+
            "  " +:+ (match dependencies f with
                      | Some (d :: ds) => "Dependencies: [" +:+ join ", " (d :: ds) +:+ "]"
                      | _ => EmptyString
                      end))).
Proof.
  split; [|split; [|split]].
  - intros before f after Hf. unfold formatFeaturesForPrompt.
    by rewrite !filter_app, filter_cons_False.
  - intros features Hall. unfold formatFeaturesForPrompt.
    replace (filter eligible features) with (@nil Feature); [done|].
    symmetry. induction Hall as [|f features Hf _ IH]; [done|].
    by rewrite filter_cons_False.
  - intros f features Hf. unfold formatFeaturesForPrompt.
    by rewrite filter_cons_True.
  - intros f. unfold formatFeature. by destruct (dependencies f) as [[|d ds]|].
Qed.

End ServerInvariants.

(** ** The POST /apply route: properties *)

Section ApplyProperties.
Context `{Fields : ChangeFields}.

Lemma featureMapOf_lookup allFeatures featureId :
  featureMapOf allFeatures !! featureId = loaded allFeatures featureId.
Proof.
  unfold featureMapOf, loaded.
  induction allFeatures as [|f l IH] using rev_ind; [done|].
  rewrite foldl_app, filter_app. simpl. rewrite filter_cons, filter_nil.
  destruct (decide (id f = featureId)) as [<-|Hne].
  - by rewrite lookup_insert_eq, last_snoc.
  - by rewrite lookup_insert_ne, app_nil_r.
Qed.

Lemma applyChange_calls projectPath update st change :
  updateCalls (applyChange projectPath update st change) = updateCalls st
  ∨ ∃ call existing,
      requested projectPath change = Some call
      ∧ featureMap st !! call_featureId call = Some existing ∧ eligible existing
      ∧ updateCalls (applyChange projectPath update st change) = updateCalls st ++ [call]
      ∧ appliedChanges (applyChange projectPath update st change)
        = appliedChanges st ++ reported (λ n, update (length (updateCalls st) + n)) [call]
      ∧ ∀ i, i ≠ call_featureId call →
             featureMap (applyChange projectPath update st change) !! i = featureMap st !! i.
Proof.
  unfold applyChange, requested, reported.
  destruct (change_featureId change) as [[|a featureId]|]; try by left.
  destruct (change_feature change) as [feature|]; [|by left].
  destruct (featureMap st !! String a featureId) as [existing|] eqn:Hex; [|by left].
  destruct (decide (eligible existing)) as [Hel|]; [|by left].
  right. eexists _, existing. split; [done|]. split; [done|]. split; [done|].
  simpl. rewrite Nat.add_0_r.
  destruct (update _ _); simpl; repeat split; try done.
  - intros i Hi. by rewrite lookup_insert_ne.
  - by rewrite app_nil_r.
Qed.

Lemma applyChange_quiet projectPath update st change :
  updateCalls (applyChange projectPath update st change) = updateCalls st →
  applyChange projectPath update st change = st.
Proof.
  unfold applyChange.
  destruct (change_featureId change) as [[|a featureId]|]; try done.
  destruct (change_feature change) as [feature|]; [|done].
  destruct (featureMap st !! String a featureId) as [existing|]; [|done].
  destruct (decide (eligible existing)); [|done].
  destruct (update _ _); simpl; intros H;
    apply (f_equal length) in H; rewrite length_app in H; simpl in H; lia.
Qed.

Lemma reported_app update calls more :
  reported update (calls ++ more)
  = reported update calls ++ reported (λ n, update (length calls + n)) more.
Proof. unfold reported. by rewrite imap_app, omap_app. Qed.

Lemma length_omap_le {A B} (f : A → option B) (l : list A) :
  length (omap f l) ≤ length l.
Proof.
  induction l as [|x l IH]; [done|]. simpl.
  destruct (f x); simpl; [apply le_n_S|apply le_S]; exact IH.
Qed.

Lemma reported_length update calls : length (reported update calls) ≤ length calls.
Proof.
  unfold reported. etransitivity; [apply length_omap_le|]. by rewrite length_imap.
Qed.

(** What the loop keeps true, from the state it starts in. *)
Lemma apply_loop projectPath update allFeatures changes :
  let st :=
    foldl (applyChange projectPath update)
      {| featureMap := featureMapOf allFeatures; appliedChanges := []; updateCalls := [] |}
      changes in
  updateCalls st `sublist_of` omap (requested projectPath) changes
  ∧ appliedChanges st = reported update (updateCalls st)
  ∧ (∀ call, call ∈ updateCalls st →
             ∃ f, loaded allFeatures (call_featureId call) = Some f ∧ eligible f)
  ∧ (∀ i, i ∉ call_featureId <$> updateCalls st →
          featureMap st !! i = loaded allFeatures i).
Proof.
  induction changes as [|change changes IH] using rev_ind.
  { simpl. split; [done|]. split; [done|]. split.
    - intros call Hc. by apply elem_of_nil in Hc.
    - intros i _. apply featureMapOf_lookup. }
  rewrite foldl_app, omap_app. simpl.
  set (st := foldl _ _ changes) in *. destruct IH as (Hsub & Hrep & Hel & Hmap).
  destruct (applyChange_calls projectPath update st change)
    as [Hq|(call & existing & Hreq & Hex & Heli & Hcalls & Happlied & Hother)].
  - rewrite (applyChange_quiet _ _ _ _ Hq).
    split; [by apply sublist_inserts_r|]. by repeat split.
  - rewrite Hcalls, Happlied, Hreq. split; [|split; [|split]].
    + by apply sublist_app.
    + by rewrite Hrep, reported_app.
    + intros c Hc. apply elem_of_app in Hc as [Hc|Hc]; [eauto|].
      apply list_elem_of_singleton in Hc as ->.
      destruct (decide (call_featureId call ∈ call_featureId <$> updateCalls st))
        as [Hin|Hnin].
      * apply list_elem_of_fmap in Hin as (c' & -> & Hc'). eauto.
      * exists existing. by rewrite <- (Hmap _ Hnin).
    + intros i Hi. rewrite fmap_app, not_elem_of_app in Hi. destruct Hi as [Hi Hne].
      rewrite Hother; [by apply Hmap|].
      intros ->. apply Hne. simpl. apply list_elem_of_here.
Qed.


Lemma requested_spec projectPath change call :
  requested projectPath change = Some call →
  call_projectPath call = projectPath ∧ call_featureId call ≠ EmptyString
  ∧ change_featureId change = Some (call_featureId call)
  ∧ change_feature change = Some (call_patch call).
Proof.
  unfold requested.
  destruct (change_featureId change) as [[|a featureId]|]; try done.
  destruct (change_feature change) as [feature|]; [|done].
  by intros [= <-].
Qed.

Lemma createApplyHandler_loop body getAll update projectPath planChanges allFeatures :
  apply_projectPath body = Some projectPath → projectPath ≠ EmptyString →
  apply_plan body = Some (Some planChanges) → getAll = Fulfilled allFeatures →
  createApplyHandler body getAll update
  = let st :=
      foldl (applyChange projectPath update)
        {| featureMap := featureMapOf allFeatures; appliedChanges := []; updateCalls := [] |}
        (filter (λ c, change_type c = "update") planChanges) in
    (updateCalls st,
     {| apply_status := 200; apply_success := true; apply_error := None;
        res_appliedChanges := Some (appliedChanges st) |}).
Proof.
  intros Hp Hne Hplan ->. unfold createApplyHandler. rewrite Hp, Hplan.
  by destruct projectPath.
Qed.

Lemma createApplyHandler_refusals body getAll update :
  (createApplyHandler body getAll update).1 = []
  ∨ ∃ projectPath planChanges allFeatures,
      apply_projectPath body = Some projectPath ∧ projectPath ≠ EmptyString
      ∧ apply_plan body = Some (Some planChanges) ∧ getAll = Fulfilled allFeatures.
Proof.
  unfold createApplyHandler.
  destruct (apply_projectPath body) as [[|a p]|] eqn:Hp; try by left.
  destruct (apply_plan body) as [[planChanges|]|]; try by left.
  destruct getAll as [allFeatures|e]; [|by left].
  right. by eexists _, _, _.
Qed.

(** X14.  POST /apply calls [featureLoader.update] only for changes
    of the plan whose type is 'update' and that carry a non-empty featureId
    and a feature, with the request's projectPath, that featureId and that
    feature, at most once per such change and in the order of the plan; a
    change of type 'add' or 'delete' never leads to a call. *)
Theorem apply_makes_only_the_updates_the_plan_asks_for (body : ApplyBody)
    (getAll : Settled (list Feature)) (update : Updater) (planChanges : list BacklogChange) :
  apply_plan body = Some (Some planChanges) →
  (createApplyHandler body getAll update).1
    `sublist_of` omap (requested (interpolate (apply_projectPath body)))
                   (filter (λ c, change_type c = "update") planChanges)
  ∧ ∀ call, call ∈ (createApplyHandler body getAll update).1 →
      apply_projectPath body = Some (call_projectPath call)
      ∧ call_featureId call ≠ EmptyString
      ∧ ∃ change, change ∈ planChanges ∧ change_type change = "update"
                  ∧ change_featureId change = Some (call_featureId call)
                  ∧ change_feature change = Some (call_patch call).
Proof.
  intros Hplan.
  destruct (createApplyHandler_refusals body getAll update)
    as [->|(projectPath & planChanges' & allFeatures & Hp & Hne & Hplan' & Hget)].
  { split; [apply sublist_nil_l|]. intros call Hc. by apply elem_of_nil in Hc. }
  assert (planChanges' = planChanges) as -> by congruence.
  rewrite (createApplyHandler_loop _ _ _ _ _ _ Hp Hne Hplan Hget), Hp. simpl.
  destruct (apply_loop projectPath update allFeatures
              (filter (λ c, change_type c = "update") planChanges)) as (Hsub & _).
  split; [done|]. intros call Hc.
  apply (elem_of_sublist _ _ _ Hc) in Hsub as Hc'. clear Hc. rename Hc' into Hc.
  apply list_elem_of_omap in Hc as (change & Hin & Hreq).
  apply list_elem_of_filter in Hin as [Htype Hin].
  destruct (requested_spec _ _ _ Hreq) as (<- & Hid & Hfid & Hfeat).
  split; [done|]. split; [done|]. by exists change.
Qed.

(** X15.  POST /apply updates only features that
    [featureLoader.getAll] returned and that it returned with status
    'backlog' or 'in_progress': every call to [featureLoader.update] names
    the id of a loaded feature, and the last loaded feature with that id is
    in 'backlog' or 'in_progress'.  A change for an unknown feature, or
    for one loaded with another status, is skipped. *)
Theorem apply_updates_only_loaded_backlog_features (body : ApplyBody)
    (allFeatures : list Feature) (update : Updater) (call : UpdateCall) :
  call ∈ (createApplyHandler body (Fulfilled allFeatures) update).1 →
  ∃ f, f ∈ allFeatures ∧ id f = call_featureId call
       ∧ loaded allFeatures (call_featureId call) = Some f
       ∧ (status f = Some "backlog" ∨ status f = Some "in_progress").
Proof.
  destruct (createApplyHandler_refusals body (Fulfilled allFeatures) update)
    as [->|(projectPath & planChanges & allFeatures' & Hp & Hne & Hplan & Hget)].
  { intros Hc. by apply elem_of_nil in Hc. }
  rewrite (createApplyHandler_loop _ _ _ _ _ _ Hp Hne Hplan eq_refl). simpl.
  destruct (apply_loop projectPath update allFeatures
              (filter (λ c, change_type c = "update") planChanges)) as (_ & _ & Hel & _).
  intros Hc. destruct (Hel call Hc) as (f & Hf & Helig). exists f.
  assert (Hin : f ∈ filter (λ f, id f = call_featureId call) allFeatures).
  { unfold loaded in Hf. apply last_Some in Hf as [l' ->].
    apply elem_of_app. right. apply list_elem_of_here. }
  apply list_elem_of_filter in Hin as [Hid Hin]. by repeat split.
Qed.

(** When no fulfilled update moves a feature out of 'backlog' and
    'in_progress', the features the loop may update stay the ones that were
    loaded so, and every change that is due is called. *)
Lemma apply_loop_due projectPath update allFeatures changes :
  (∀ n call f, update n call = Fulfilled f → eligible f) →
  let st :=
    foldl (applyChange projectPath update)
      {| featureMap := featureMapOf allFeatures; appliedChanges := []; updateCalls := [] |}
      changes in
  updateCalls st = omap (due projectPath allFeatures) changes
  ∧ ∀ i, (∃ f, featureMap st !! i = Some f ∧ eligible f)
         ↔ (∃ f, loaded allFeatures i = Some f ∧ eligible f).
Proof.
  intros Hkeep. induction changes as [|change changes IH] using rev_ind.
  { simpl. split; [done|]. intros i. by rewrite featureMapOf_lookup. }
  rewrite foldl_app, omap_app. simpl.
  set (st := foldl _ _ changes) in *. destruct IH as (Hcalls & Hmap).
  unfold applyChange. unfold due at 2. unfold requested.
  destruct (change_featureId change) as [[|a featureId]|];
    try (rewrite app_nil_r; by split).
  destruct (change_feature change) as [feature|];
    [|rewrite app_nil_r; by split].
  simpl. pose proof (Hmap (String a featureId)) as Hfid.
  destruct (featureMap st !! String a featureId) as [existing|] eqn:Hex.
  - destruct (decide (eligible existing)) as [Hel|Hnel].
    + destruct (proj1 Hfid) as (g & Hload & Hg); [by exists existing|].
      rewrite Hload, decide_True by done.
      destruct (update _ _) as [updated|error] eqn:Hup; simpl;
        (split; [by rewrite Hcalls|]); [|done].
      intros i. destruct (decide (i = String a featureId)) as [->|Hne].
      * rewrite lookup_insert_eq. split; [intros _; by exists g|].
        intros _. exists updated. split; [done|]. by eapply Hkeep.
      * by rewrite lookup_insert_ne.
    + assert (Hnone : ¬ ∃ f, loaded allFeatures (String a featureId) = Some f ∧ eligible f).
      { intros H. apply Hfid in H as (f & [= <-] & Hf). by apply Hnel. }
      split; [|done]. rewrite Hcalls.
      destruct (loaded allFeatures (String a featureId)) as [g|]; [|by rewrite app_nil_r].
      rewrite decide_False; [by rewrite app_nil_r|]. intros Hg. apply Hnone. by exists g.
  - assert (Hnone : ¬ ∃ f, loaded allFeatures (String a featureId) = Some f ∧ eligible f).
    { intros H. by apply Hfid in H as (f & [=] & _). }
    split; [|done]. rewrite Hcalls.
    destruct (loaded allFeatures (String a featureId)) as [g|]; [|by rewrite app_nil_r].
    rewrite decide_False; [by rewrite app_nil_r|]. intros Hg. apply Hnone. by exists g.
Qed.

(** X16.  Once the features are loaded, POST /apply always
    answers success: true, whatever [featureLoader.update] does: a call
    that fails is dropped from the report and the remaining changes are
    still processed.  appliedChanges lists 'updated:<featureId>' for
    exactly the calls that succeeded, in the order they were made.  As
    long as no fulfilled update returns a feature outside 'backlog' and
    'in_progress', the calls made are exactly, and in the order of the
    plan, the update changes with a featureId and a feature whose feature
    was loaded in 'backlog' or 'in_progress': a failing call stops none of
    the later ones, not even one for the same feature. *)
Theorem apply_reports_the_updates_that_succeeded (body : ApplyBody)
    (allFeatures : list Feature) (update : Updater) :
  truthy (apply_projectPath body) = true → is_Some (mjoin (apply_plan body)) →
  (createApplyHandler body (Fulfilled allFeatures) update).2
  = {| apply_status := 200; apply_success := true; apply_error := None;
       res_appliedChanges :=
         Some (reported update (createApplyHandler body (Fulfilled allFeatures) update).1) |}
  ∧ length (reported update (createApplyHandler body (Fulfilled allFeatures) update).1)
    ≤ length (createApplyHandler body (Fulfilled allFeatures) update).1
  ∧ ((∀ n call f, update n call = Fulfilled f →
                  status f = Some "backlog" ∨ status f = Some "in_progress") →
       (createApplyHandler body (Fulfilled allFeatures) update).1
       = omap (due (interpolate (apply_projectPath body)) allFeatures)
           (filter (λ c, change_type c = "update") (default [] (mjoin (apply_plan body))))).
Proof.
  intros Hp [planChanges Hplan].
  destruct (apply_projectPath body) as [[|a p]|] eqn:Hpp; try discriminate Hp.
  destruct (apply_plan body) as [[planChanges'|]|] eqn:Hpl; try discriminate Hplan.
  rewrite (createApplyHandler_loop body _ update (String a p) planChanges' allFeatures
             Hpp ltac:(done) Hpl eq_refl). simpl.
  destruct (apply_loop (String a p) update allFeatures
              (filter (λ c, change_type c = "update") planChanges')) as (_ & -> & _).
  split; [done|]. split; [apply reported_length|].
  intros Hkeep.
  by destruct (apply_loop_due (String a p) update allFeatures
                 (filter (λ c, change_type c = "update") planChanges') Hkeep) as [-> _].
Qed.

(** X17.  POST /apply touches no feature when it refuses a
    request: without projectPath, without plan or without plan.changes it
    answers 400, and when [featureLoader.getAll] fails it answers 500 with
    the message of that error; in each case [featureLoader.update] is not
    called. *)
Theorem apply_refusals_touch_no_feature (body : ApplyBody)
    (getAll : Settled (list Feature)) (update : Updater) :
  (truthy (apply_projectPath body) = false →
     createApplyHandler body getAll update = ([], apply_refused 400 "projectPath required"))
  ∧ (truthy (apply_projectPath body) = true → mjoin (apply_plan body) = None →
       createApplyHandler body getAll update
       = ([], apply_refused 400 "plan with changes required"))
  ∧ (∀ error,
       truthy (apply_projectPath body) = true → is_Some (mjoin (apply_plan body)) →
       getAll = Rejected error →
       createApplyHandler body getAll update
       = ([], apply_refused 500 (getErrorMessage error)))
  ∧ (apply_success (createApplyHandler body getAll update).2 = false →
       (createApplyHandler body getAll update).1 = []).
Proof.
  unfold createApplyHandler.
  destruct (apply_projectPath body) as [[|a p]|]; simpl;
    (split; [done|]); (split; [try done|]);
    try (split; [done|done]).
  - destruct (apply_plan body) as [[?|]|]; done.
  - split.
    + intros error _ [planChanges Hplan] ->.
      by destruct (apply_plan body) as [[?|]|].
    + destruct (apply_plan body) as [[?|]|]; [|done|done]. by destruct getAll.
Qed.

(** X18.  The artifact that a generation publishes passes the
    filter of POST /apply unchanged: every change of
    [parseModifyResponse response] has type 'update', so none of them is
    dropped as an add or a delete. *)
Theorem apply_keeps_every_change_of_a_generated_plan (response : string) :
  filter (λ c, change_type c = "update") (changes (parseModifyResponse response))
  = changes (parseModifyResponse response).
Proof.
  destruct (parseModifyResponse_updates_only response) as [Hall _].
  induction (changes (parseModifyResponse response)) as [|c l IH]; [done|].
  rewrite filter_cons_True by (apply Hall, list_elem_of_here).
  f_equal. apply IH. intros c' Hc'. apply Hall. by apply list_elem_of_further.
Qed.

End ApplyProperties.

(** ** The review dialog: properties *)

Section DialogProperties.
Context `{Ext : Externals}.

Lemma imap_pair_snd {A} (l : list A) (k : nat) :
  snd <$> imap (λ i x, (k + i, x)) l = l.
Proof.
  revert k. induction l as [|x l IH]; intros k; [done|]. simpl. f_equal.
  rewrite <- (IH (S k)) at 2. f_equal. apply imap_ext. intros i y _. simpl. f_equal. lia.
Qed.

Lemma filter_all {A} (P : A → Prop) `{!∀ x, Decision (P x)} (l : list A) :
  (∀ x, x ∈ l → P x) → filter P l = l.
Proof.
  induction l as [|x l IH]; intros Hall; [done|].
  rewrite filter_cons_True by (apply Hall, list_elem_of_here).
  f_equal. apply IH. intros y Hy. by apply Hall, list_elem_of_further.
Qed.

Lemma selectedChangesList_elem pending selectedChanges change :
  change ∈ selectedChangesList pending selectedChanges
  ↔ ∃ index, index ∈ selectedChanges ∧ changes pending !! index = Some change.
Proof.
  unfold selectedChangesList. rewrite list_elem_of_fmap. split.
  - intros ([i c] & -> & Hin). apply list_elem_of_filter in Hin as [Hsel Hin].
    apply elem_of_lookup_imap in Hin as (j & y & [= -> ->] & Hl). by exists j.
  - intros (i & Hsel & Hl). exists (i, change). split; [done|].
    apply list_elem_of_filter. split; [done|].
    apply elem_of_lookup_imap. by exists i, change.
Qed.

Lemma allChanges_elem pending index :
  index ∈ allChanges pending ↔ index < length (changes pending).
Proof.
  unfold allChanges. rewrite elem_of_list_to_set, elem_of_seq. lia.
Qed.

Lemma allChanges_size pending : size (allChanges pending) = length (changes pending).
Proof.
  unfold allChanges. rewrite size_list_to_set by apply NoDup_seq. apply length_seq.
Qed.

(** X19.  Toggling a change in the review dialog twice restores the
    selection; one toggle flips the membership of that change and of no
    other, and a selection of listed changes stays one. *)
Theorem toggling_a_change_twice_restores_the_selection (index : nat) (prev : gset nat) :
  toggleChangeSelected index (toggleChangeSelected index prev) = prev
  ∧ (index ∈ toggleChangeSelected index prev ↔ index ∉ prev)
  ∧ (∀ other, other ≠ index →
       (other ∈ toggleChangeSelected index prev ↔ other ∈ prev))
  ∧ (∀ pending : Plan,
       prev ⊆ allChanges pending → index < length (changes pending) →
       toggleChangeSelected index prev ⊆ allChanges pending).
Proof.
  unfold toggleChangeSelected. split; [|split; [|split]].
  - apply set_eq. intros x. destruct (decide (index ∈ prev)) as [Hin|Hnin].
    + rewrite decide_False by (rewrite elem_of_difference, elem_of_singleton; tauto).
      rewrite elem_of_union, elem_of_difference, elem_of_singleton.
      destruct (decide (x = index)) as [->|]; tauto.
    + rewrite decide_True by (rewrite elem_of_union, elem_of_singleton; tauto).
      rewrite elem_of_difference, elem_of_union, elem_of_singleton.
      destruct (decide (x = index)) as [->|]; tauto.
  - destruct (decide (index ∈ prev)) as [Hin|Hnin].
    + rewrite elem_of_difference, elem_of_singleton. tauto.
    + rewrite elem_of_union, elem_of_singleton. tauto.
  - intros other Hne. destruct (decide (index ∈ prev)) as [Hin|Hnin].
    + rewrite elem_of_difference, elem_of_singleton. tauto.
    + rewrite elem_of_union, elem_of_singleton. tauto.
  - intros pending Hsub Hlt. apply allChanges_elem in Hlt. intros x.
    destruct (decide (index ∈ prev)) as [Hin|Hnin].
    + rewrite elem_of_difference. intros [Hx _]. by apply Hsub.
    + rewrite elem_of_union, elem_of_singleton. intros [Hx| ->]; [by apply Hsub|done].
Qed.

(** X20.  For a selection of listed changes, "select all" clears
    the selection when every change is selected and otherwise selects
    every change; on the selection the dialog opens with it clears. *)
Theorem toggle_all_clears_a_full_selection (pending : Plan) (selectedChanges : gset nat) :
  selectedChanges ⊆ allChanges pending →
  toggleAllChanges (Some pending) selectedChanges
  = (if decide (selectedChanges = allChanges pending) then ∅ else allChanges pending)
  ∧ toggleAllChanges (Some pending) (allChanges pending) = ∅
  ∧ toggleAllChanges None selectedChanges = selectedChanges.
Proof.
  intros Hsub. unfold toggleAllChanges. rewrite allChanges_size.
  split; [|split; [by rewrite decide_True|done]].
  destruct (decide (selectedChanges = allChanges pending)) as [->|Hne].
  - by rewrite decide_True by apply allChanges_size.
  - rewrite decide_False; [done|]. intros Hsize. apply Hne.
    apply set_subseteq_size_eq; [done|]. rewrite allChanges_size. lia.
Qed.

(** X21.  The Apply button sends to POST /apply only changes of the
    pending result that are selected, in the order of the result, with the
    summary kept and no dependency updates; with the selection the dialog
    opens with it sends every change; when no listed change is selected,
    when there is no pending result or when the API is missing it sends
    nothing. *)
Theorem the_dialog_sends_the_selected_changes (apiAvailable : bool)
    (pendingModifyResult : option Plan) (selectedChanges : gset nat) :
  (∀ sent,
     handleApply apiAvailable pendingModifyResult selectedChanges = Some sent →
     ∃ pending,
       pendingModifyResult = Some pending ∧ apiAvailable = true
       ∧ changes sent ≠ []
       ∧ changes sent `sublist_of` changes pending
       ∧ (∀ change, change ∈ changes sent
                    ↔ ∃ index, index ∈ selectedChanges
                               ∧ changes pending !! index = Some change)
       ∧ summary sent = summary pending ∧ dependencyUpdates sent = [])
  ∧ (∀ pending,
       pendingModifyResult = Some pending → changes pending ≠ [] →
       handleApply true pendingModifyResult (allChanges pending)
       = Some {| changes := changes pending; summary := summary pending;
                 dependencyUpdates := [] |})
  ∧ (∀ pending,
       pendingModifyResult = Some pending →
       (∀ index, index ∈ selectedChanges → length (changes pending) ≤ index) →
       handleApply apiAvailable pendingModifyResult selectedChanges = None).
Proof.
  split; [|split].
  - intros sent. unfold handleApply.
    destruct pendingModifyResult as [pending|]; [|done].
    destruct (selectedChangesList pending selectedChanges) as [|c l] eqn:Hsel; [done|].
    destruct apiAvailable; [|done]. intros [= <-]. exists pending. simpl.
    split; [done|]. split; [done|]. split; [done|]. rewrite <- Hsel. split; [|split].
    + unfold selectedChangesList.
      rewrite <- (imap_pair_snd (changes pending) 0) at 2.
      apply fmap_sublist. simpl. apply sublist_filter.
    + intros change. apply selectedChangesList_elem.
    + done.
  - intros pending -> Hne. unfold handleApply.
    assert (Hall : selectedChangesList pending (allChanges pending) = changes pending).
    { unfold selectedChangesList.
      rewrite <- (imap_pair_snd (changes pending) 0) at 2. simpl. f_equal.
      apply filter_all. intros [i c] Hin. simpl.
      apply elem_of_lookup_imap in Hin as (j & y & [= -> ->] & Hl).
      apply allChanges_elem. by eapply lookup_lt_Some. }
    rewrite Hall. by destruct (changes pending).
  - intros pending -> Hout. unfold handleApply.
    destruct (selectedChangesList pending selectedChanges) as [|c l] eqn:Hsel; [done|].
    assert (Hc : c ∈ selectedChangesList pending selectedChanges)
      by (rewrite Hsel; apply list_elem_of_here).
    apply selectedChangesList_elem in Hc as (i & Hi & Hl).
    apply lookup_lt_Some in Hl. apply Hout in Hi. lia.
Qed.

End DialogProperties.

(** ** libs/types: properties *)

Section TypesProperties.
Import Types.

Lemma append_cons a s t : String a s +:+ t = String a (s +:+ t).
Proof. reflexivity. Qed.

Lemma prefix_spec keyword s :
  String.prefix keyword s = true ↔ ∃ after, s = keyword +:+ after.
Proof.
  revert s. induction keyword as [|a keyword IH]; intros s.
  { split; [by exists s|by destruct s]. }
  destruct s as [|b s]; simpl.
  { split; [done|]. by intros [after Heq]. }
  destruct (ascii_dec a b) as [->|Hne].
  - rewrite IH. split; intros [after Heq]; exists after.
    + by rewrite append_cons, Heq.
    + rewrite append_cons in Heq. by injection Heq.
  - split; [done|]. intros [after Heq]. rewrite append_cons in Heq. by injection Heq.
Qed.

Lemma includes_spec s keyword :
  includes s keyword = true ↔ ∃ before after, s = before +:+ keyword +:+ after.
Proof.
  induction s as [|b s IH].
  - cbn [includes]. rewrite orb_false_r, prefix_spec. split.
    + intros [after Heq]. by exists EmptyString, after.
    + intros ([|c before] & after & Heq); [by exists after|].
      rewrite append_cons in Heq. discriminate Heq.
  - cbn [includes]. rewrite orb_true_iff, IH, prefix_spec. split.
    + intros [[after Heq]|(before & after & Heq)].
      * by exists EmptyString, after.
      * exists (String b before), after. by rewrite append_cons, Heq.
    + intros ([|c before] & after & Heq).
      * left. by exists after.
      * right. rewrite append_cons in Heq. injection Heq as -> ->. by exists before, after.
Qed.

(** X22.  [isUiFeature] answers true exactly when the lower-cased category
    is 'ui' or 'enhancement', or one of its 22 keywords occurs somewhere,
    inside a word or not, in the lower-cased text made of the description,
    a space and the title; a missing title and an empty title count
    alike. *)
Theorem isUiFeature_looks_for_keywords_anywhere (toLowerCase : string → string)
    (category description : string) (title : option string) :
  (isUiFeature toLowerCase category description title = true
   ↔ toLowerCase category ∈ uiCategories
     ∨ ∃ keyword before after,
         keyword ∈ uiKeywords
         ∧ searchedText toLowerCase description title = before +:+ keyword +:+ after)
  ∧ isUiFeature toLowerCase category description None
    = isUiFeature toLowerCase category description (Some EmptyString).
Proof.
  split; [|done]. unfold isUiFeature.
  destruct (bool_decide_reflect (toLowerCase category ∈ uiCategories)) as [Hc|Hc].
  { split; [by left|done]. }
  rewrite existsb_exists. split.
  - intros (keyword & Hin & Hinc). right. apply includes_spec in Hinc as (b & a & Heq).
    exists keyword, b, a. by rewrite <- list_elem_of_In in Hin.
  - intros [?|(keyword & b & a & Hin & Heq)]; [done|].
    exists keyword. rewrite <- list_elem_of_In. split; [done|].
    apply includes_spec. by exists b, a.
Qed.

Lemma entry_Some table modelId config :
  entry table modelId = Some config → (modelId, config) ∈ table.
Proof.
  induction table as [|[key c] table IH]; [done|]. simpl.
  destruct (String.eqb_spec key modelId) as [->|_].
  - intros [= ->]. apply list_elem_of_here.
  - intros H. by apply list_elem_of_further, IH.
Qed.

Lemma entry_None table modelId :
  entry table modelId = None ↔ modelId ∉ fst <$> table.
Proof.
  induction table as [|[key c] table IH]; simpl.
  { split; [intros _ H; by apply elem_of_nil in H|done]. }
  rewrite not_elem_of_cons. destruct (String.eqb_spec key modelId) as [->|Hne].
  - split; [done|]. by intros [? _].
  - rewrite IH. split; [by split|by intros [_ ?]].
Qed.

(** X23.  The Cursor model table is keyed by the ids of its entries
    and lists each id once.  For a listed id the helpers return the
    entry's label and thinking flag; for any other id
    [getCursorModelLabel] returns the id itself and
    [cursorModelHasThinking] returns false.  The models with thinking are
    exactly 'sonnet-4.5-thinking' and 'opus-4.5-thinking'. *)
Theorem cursor_model_helpers_fall_back_for_unknown_ids (modelId : string) :
  NoDup getAllCursorModelIds
  ∧ (∀ key config, (key, config) ∈ CURSOR_MODEL_MAP → cfg_id config = key)
  ∧ (modelId ∈ getAllCursorModelIds →
       ∃ config, (modelId, config) ∈ CURSOR_MODEL_MAP
                 ∧ getCursorModelLabel modelId = label config
                 ∧ cursorModelHasThinking modelId = hasThinking config)
  ∧ (modelId ∉ getAllCursorModelIds →
       getCursorModelLabel modelId = modelId ∧ cursorModelHasThinking modelId = false)
  ∧ (cursorModelHasThinking modelId = true
     ↔ modelId = "sonnet-4.5-thinking" ∨ modelId = "opus-4.5-thinking").
Proof.
  split; [|split; [|split; [|split]]].
  - apply (bool_decide_unpack _). by vm_compute.
  - intros key config Hin. unfold CURSOR_MODEL_MAP in Hin.
    repeat (apply elem_of_cons in Hin as [[= -> ->]|Hin]; [reflexivity|]).
    by apply elem_of_nil in Hin.
  - intros Hin. unfold getCursorModelLabel, cursorModelHasThinking.
    destruct (entry CURSOR_MODEL_MAP modelId) as [config|] eqn:He.
    + exists config. split; [by apply entry_Some|done].
    + by apply entry_None in He.
  - intros Hout. apply entry_None in Hout.
    unfold getCursorModelLabel, cursorModelHasThinking. by rewrite Hout.
  - unfold cursorModelHasThinking, CURSOR_MODEL_MAP, entry.
    repeat match goal with
      | |- context [String.eqb ?k modelId] =>
          destruct (String.eqb_spec k modelId) as [<-|?]
      end; simpl; split; try done; try (by left); try (by right);
      intros [?|?]; congruence.
Qed.

End TypesProperties.

(** ** The user prompt: properties *)

Section PromptProperties.
Context `{Ext : Externals}.

Lemma substring_all s : String.substring 0 (String.length s) s = s.
Proof. induction s as [|a s IH]; [done|]. simpl. by rewrite IH. Qed.

Lemma substring_after keyword after :
  String.substring (String.length keyword)
    (String.length (keyword +:+ after) - String.length keyword) (keyword +:+ after)
  = after.
Proof.
  induction keyword as [|a keyword IH]; simpl.
  - rewrite Nat.sub_0_r. apply substring_all.
  - apply IH.
Qed.

Lemma split_prefix keyword s :
  String.prefix keyword s = true →
  s = keyword +:+ String.substring (String.length keyword)
                    (String.length s - String.length keyword) s.
Proof.
  intros Hp. apply prefix_spec in Hp as [post ->]. by rewrite substring_after.
Qed.

Lemma split_first_Some keyword s before after :
  split_first keyword s = Some (before, after) → s = before +:+ keyword +:+ after.
Proof.
  revert before. induction s as [|a s IH]; intros before.
  - cbn [split_first]. destruct (String.prefix keyword EmptyString) eqn:Hp; [|done].
    intros [= <- <-]. exact (split_prefix _ _ Hp).
  - cbn [split_first]. destruct (String.prefix keyword (String a s)) eqn:Hp.
    + intros [= <- <-]. exact (split_prefix _ _ Hp).
    + destruct (split_first keyword s) as [[b c]|] eqn:Hs; [|done].
      intros [= <- <-]. by rewrite append_cons, <- (IH b).
Qed.

Lemma split_first_first keyword s before after :
  keyword ≠ EmptyString →
  split_first keyword s = Some (before, after) → Types.includes before keyword = false.
Proof.
  intros Hne. destruct keyword as [|x keyword]; [done|]. clear Hne.
  revert before. induction s as [|a s IH]; intros before.
  - by cbn [split_first String.prefix].
  - cbn [split_first]. destruct (String.prefix (String x keyword) (String a s)) eqn:Hp.
    + by intros [= <- <-].
    + destruct (split_first (String x keyword) s) as [[b c]|] eqn:Hs; [|done].
      intros [= <- <-]. cbn [Types.includes]. rewrite (IH b eq_refl), orb_false_r.
      destruct (String.prefix (String x keyword) (String a b)) eqn:Hpb; [|done].
      apply prefix_spec in Hpb as [post Hpb].
      apply split_first_Some in Hs.
      assert (String.prefix (String x keyword) (String a s) = true); [|congruence].
      apply prefix_spec. exists (post +:+ String x keyword +:+ c).
      by rewrite Hs, <- append_cons, Hpb, append_assoc.
Qed.

Lemma split_first_None keyword s :
  split_first keyword s = None ↔ Types.includes s keyword = false.
Proof.
  induction s as [|a s IH]; cbn [split_first Types.includes].
  - destruct (String.prefix keyword EmptyString); by split.
  - destruct (String.prefix keyword (String a s)); [by split|]. simpl.
    rewrite <- IH. destruct (split_first keyword s) as [[b c]|]; by split.
Qed.

Lemma substitution_plain matched before after replacement :
  Types.includes replacement "$" = false →
  substitution matched before after replacement = replacement.
Proof.
  induction replacement as [|c r IH]; [done|].
  cbn [Types.includes]. intros H. apply orb_false_iff in H as [Hp Hr].
  assert (Hc : c ≠ "$"%char).
  { intros ->. by destruct r. }
  cbn [substitution].
  destruct (Ascii.eqb_spec c "$") as [?|_]; [done|].
  rewrite (IH Hr).
  destruct c as [[] [] [] [] [] [] [] []]; try done; by destruct r.
Qed.

(** What [generateBacklogModify] carries on with after the prompts are
    loaded. *)
Lemma generateBacklogModify_prompt t s features prompts :
  at_ t = AwaitPrompts features → getPromptCustomization (answers t) = Fulfilled prompts →
  (generateBacklogModify t s).2
  = if truthy (model t)
    then AwaitAutoLoad (bm_systemPrompt prompts) (userPromptOf prompts features (prompt t))
           (interpolate (model t)) None
    else AwaitSettings (bm_systemPrompt prompts) (userPromptOf prompts features (prompt t)).
Proof.
  intros Hat Hp. unfold generateBacklogModify. rewrite Hat, Hp.
  by destruct (truthy (model t)).
Qed.

Lemma generateBacklogModify_keeps_prompt t s :
  prompt_respected t → prompt_respected (suspend_at (generateBacklogModify t s).2 t).
Proof.
  unfold prompt_respected, prompts_of. simpl.
  destruct (at_ t) as [|features|sysP usrP|sysP usrP eff th|txt [|msg rest]|err|out] eqn:Hat;
    unfold generateBacklogModify, failed; rewrite Hat; simpl; intros Hm;
    repeat match goal with
      | |- context [match ?x with Fulfilled _ => _ | Rejected _ => _ end] =>
          destruct x eqn:?
      | |- context [if truthy ?x then _ else _] => destruct (truthy x) eqn:?
      | |- context [if aborted ?c ?s then _ else _] => destruct (aborted c s)
      | |- context [match stream_failure ?a with Some _ => _ | None => _ end] =>
          destruct (stream_failure a)
      end; simpl; try done.
  all: by eexists _, _.
Qed.

(** On every run, each suspended task holds the prompts built from its
    request, and each query was made with the prompts of its task. *)
Lemma reachable_prompts s :
  reachable s →
  (∀ i t, tasks s !! i = Some t → prompt_respected t)
  ∧ (∀ k q, queries s !! k = Some q → ∃ i t, tasks s !! i = Some t ∧ prompted_by q t).
Proof.
  revert s. apply reachable_ind.
  { split; intros ? ? H; discriminate H. }
  intros a s _ (Htasks & Hqueries). destruct a as [body ans| | |tid]; simpl.
  - destruct (createGenerateHandler_cases body ans s) as [->|(_ & task & Hat & _ & ->)];
      [done|]. simpl. split.
    + intros i t Hi. apply lookup_app_Some in Hi as [Hi|[_ Hi]]; [eauto|].
      apply list_lookup_singleton_Some in Hi as [_ <-].
      unfold prompt_respected. by rewrite Hat.
    + intros k q Hk. destruct (Hqueries k q Hk) as (i & t & Hi & Hq).
      exists i, t. split; [by apply lookup_app_l_Some|done].
  - destruct (createStopHandler_frame s) as (_ & -> & ->). done.
  - done.
  - destruct (resume_cases s tid) as [->|(t & Hlook & Hs)]; [done|].
    destruct (resume_effect s tid t Hlook Hs) as (s1 & -> & Hs1). simpl.
    pose proof (generateBacklogModify_keeps_prompt t s (Htasks tid t Hlook)) as Hkeep.
    set (pc := (generateBacklogModify t s).2) in *.
    assert (Hold : ∀ k q, queries s !! k = Some q →
              ∃ i u, <[tid := suspend_at pc t]> (tasks s) !! i = Some u ∧ prompted_by q u).
    { intros k q Hk. destruct (Hqueries k q Hk) as (i & u & Hu & Hq).
      destruct (decide (i = tid)) as [->|Hd].
      - rewrite Hlook in Hu. injection Hu as <-.
        exists tid, (suspend_at pc t).
        by rewrite list_lookup_insert_eq by (by eapply lookup_lt_Some).
      - exists i, u. by rewrite list_lookup_insert_ne. }
    split.
    + intros i u Hu. apply list_lookup_insert_Some in Hu as [(_ & <- & _)|[_ Hu]]; eauto.
    + destruct pc as [| | | |txt rest| |[r|e]] eqn:Hpc; try (destruct Hs1 as [->|Hs1]);
        try subst s1; simpl; try done;
        try (destruct Hs1 as (c & ->); done).
      destruct Hs1 as (sysP & usrP & eff & th & al & Hat & ->). simpl.
      intros k q Hk. apply lookup_app_Some in Hk as [Hk|[_ Hk]]; [eauto|].
      apply list_lookup_singleton_Some in Hk as [_ <-].
      exists tid, (suspend_at (AwaitNext txt rest) t).
      rewrite list_lookup_insert_eq by (by eapply lookup_lt_Some).
      split; [done|].
      pose proof (Htasks tid t Hlook) as Hp. unfold prompt_respected in Hp.
      rewrite Hat in Hp. split; [done|]. by exists sysP, usrP.
Qed.

(** X13.  The request is put into the prompt at the first
    {{userRequest}} of the template in which the features have been filled
    in; a request without a '$' is put there as it is.  When the template
    has no {{userRequest}}, the prompt is the same for every request: the
    request does not reach the model.  The request is the prompt of the
    body of the admitted POST /generate.  On every run of the server, the
    prompt of every [executeQuery] call is the user prompt so built from
    the request of its job, the features the loader returned and the
    loaded template, whether the model came with the request or from the
    settings; a Cursor model gets it after the system prompt and the fixed
    instructions and without a separate system prompt, any other model
    gets it as it is with the loaded system prompt. *)
Theorem the_request_is_inserted_at_the_placeholder :
  (∀ prompts features request before after,
     split_first "{{userRequest}}" (withFeatures prompts features) = Some (before, after) →
     withFeatures prompts features = before +:+ "{{userRequest}}" +:+ after
     ∧ Types.includes before "{{userRequest}}" = false
     ∧ (Types.includes request "$" = false →
          userPromptOf prompts features request = before +:+ request +:+ after))
  ∧ (∀ prompts features request,
       Types.includes (withFeatures prompts features) "{{userRequest}}" = false →
       userPromptOf prompts features request = withFeatures prompts features)
  ∧ (∀ body ans s,
       well_formed body = true → isRunning s = false →
       ∃ task,
         tasks (createGenerateHandler body ans s).1 = tasks s ++ [task]
         ∧ prompt task = interpolate (body_prompt body) ∧ answers task = ans)
  ∧ (∀ t s features prompts,
       at_ t = AwaitPrompts features →
       getPromptCustomization (answers t) = Fulfilled prompts →
       (generateBacklogModify t s).2
       = if truthy (model t)
         then AwaitAutoLoad (bm_systemPrompt prompts)
                (userPromptOf prompts features (prompt t)) (interpolate (model t)) None
         else AwaitSettings (bm_systemPrompt prompts)
                (userPromptOf prompts features (prompt t)))
  ∧ (∀ s, reachable s →
       ∀ k q, queries s !! k = Some q →
         ∃ i t features prompts,
           tasks s !! i = Some t ∧ abortController q.2 = controller t
           ∧ featureLoader_getAll (answers t) = Fulfilled features
           ∧ getPromptCustomization (answers t) = Fulfilled prompts
           ∧ opt_prompt q.2
             = (if isCursorModel (opt_model q.2)
                then cursorPrompt (bm_systemPrompt prompts)
                       (userPromptOf prompts features (prompt t))
                else userPromptOf prompts features (prompt t))
           ∧ systemPrompt q.2
             = (if isCursorModel (opt_model q.2)
                then None else Some (bm_systemPrompt prompts))).
Proof.
  split; [|split; [|split; [|split]]].
  - intros prompts features request before after Hsplit.
    split; [by apply split_first_Some|].
    split; [by eapply split_first_first|].
    intros Hplain. unfold userPromptOf, replace at 1. rewrite Hsplit.
    by rewrite substitution_plain.
  - intros prompts features request Hnone. apply split_first_None in Hnone.
    unfold userPromptOf, replace at 1. by rewrite Hnone.
  - intros body ans s Hwf Hidle. unfold well_formed in Hwf.
    apply andb_true_iff in Hwf as [Hp Hq].
    unfold createGenerateHandler, getBacklogModifyStatus. rewrite Hp, Hq, Hidle. simpl.
    by eexists.
  - intros t s features prompts Hat Hp. by apply generateBacklogModify_prompt.
  - intros s Hs k q Hk.
    destruct (reachable_prompts s Hs) as [_ Hqueries].
    destruct (Hqueries k q Hk)
      as (i & t & Hi & Hc & sysP & usrP & (features & prompts & Hf & Hpr & -> & ->) & Ho & Hsys).
    by exists i, t, features, prompts.
Qed.

End PromptProperties.

(** ** The further properties on sample runs *)

Lemma status_on_a_sample_run :
  createStatusHandler (Demo.started ab_stream)
  = (Demo.started ab_stream,
     {| res_status := 200; success := true; res_error := None; res_message := None;
        res_isRunning := Some (isRunning (Demo.started ab_stream)) |})
  ∧ (isRunning (Demo.started ab_stream) = true
     ↔ is_Some (currentAbortController (Demo.started ab_stream)))
  ∧ res_isRunning (createStatusHandler (createStopHandler (Demo.started ab_stream)).1).2
    = Some false
  ∧ ∀ body ans,
      well_formed body = true →
      res_isRunning
        (createStatusHandler (createGenerateHandler body ans (Demo.started ab_stream)).1).2
      = Some true.
Proof.
  apply (status_reports_the_running_flag (Demo.started ab_stream)).
  apply reachable_run, reachable_initial.
Defined.

Lemma a_live_job_on_a_sample_run :
  ∃ c t, currentAbortController (Demo.started ab_stream) = Some c
         ∧ aborted c (Demo.started ab_stream) = false
         ∧ last (tasks (Demo.started ab_stream)) = Some t ∧ controller t = c
         ∧ settled t = false.
Proof.
  apply (running_flag_has_a_live_job (Demo.started ab_stream)).
  - apply reachable_run, reachable_initial.
  - reflexivity.
Defined.

Lemma controllers_of_two_sample_jobs :
  (∀ i j t u, tasks restarted !! i = Some t → tasks restarted !! j = Some u → i ≠ j →
              controller t ≠ controller u)
  ∧ (∀ i t, tasks restarted !! i = Some t → is_Some (controllers restarted !! controller t))
  ∧ (∀ i t, tasks restarted !! i = Some t → S i < length (tasks restarted) →
            aborted (controller t) (createStopHandler restarted).1
            = aborted (controller t) restarted).
Proof.
  apply (jobs_have_controllers_of_their_own restarted).
  do 2 apply reachable_run. apply reachable_initial.
Defined.

Lemma a_signal_on_a_sample_run :
  aborted 0 (run [PostGenerate Demo.body ab_stream; Resume 0; Resume 1; PostStop] stopped)
  = true.
Proof.
  apply (signalled_controller_stays_signalled
           [PostGenerate Demo.body ab_stream; Resume 0; Resume 1; PostStop] stopped 0).
  reflexivity.
Defined.

Lemma queries_of_a_sample_run :
  (∀ k l q r, queries overtaken !! k = Some q → queries overtaken !! l = Some r →
              abortController q.2 = abortController r.2 → k = l)
  ∧ (∀ k q, queries overtaken !! k = Some q →
            ∃ i t, tasks overtaken !! i = Some t ∧ controller t = abortController q.2
                   ∧ before_query t = false)
  ∧ length (queries overtaken) ≤ length (tasks overtaken).
Proof.
  apply (a_job_queries_the_provider_at_most_once overtaken).
  do 3 apply reachable_run. apply reachable_initial.
Defined.


Lemma announcements_of_a_sample_run :
  length (filter (λ e, is_complete e = true) (bus ab_finished))
  = length (filter (λ t, fulfilled t = true) (tasks ab_finished))
  ∧ (∀ i t r, tasks ab_finished !! i = Some t → at_ t = Returned (Fulfilled r) →
              (channel, backlog_modify_complete r) ∈ bus ab_finished)
  ∧ (∀ i t e, tasks ab_finished !! i = Some t → at_ t = Returned (Rejected e) →
              (channel, backlog_modify_error (getErrorMessage e)) ∈ bus ab_finished).
Proof.
  apply (every_returned_job_is_announced ab_finished).
  do 2 apply reachable_run. apply reachable_initial.
Defined.

Lemma a_sample_job_with_error_messages :
  foldl consume EmptyString [error_message; result_error] = EmptyString
  ∧ bus (Nat.iter 3 (resume 0) complaining)
    = bus complaining
      ++ [(channel, backlog_modify_complete (parseModifyResponse EmptyString))].
Proof.
  apply (other_messages_do_not_fail_the_job complaining 0
           (job (Demo.answering [error_message; result_error] None)
              (AwaitNext EmptyString [error_message; result_error]))
           EmptyString [error_message; result_error]).
  - reflexivity.
  - reflexivity.
  - apply Forall_cons. split; [split; [discriminate|left; discriminate]|].
    apply Forall_cons. split; [split; [discriminate|right; left; discriminate]|].
    apply Forall_nil_2.
  - reflexivity.
  - reflexivity.
Defined.

Lemma a_sample_stop_after_the_last_message :
  tasks (resume 0 (createStopHandler (Demo.started (Demo.answering [] None))).1)
  = tasks (resume 0 (Demo.started (Demo.answering [] None)))
  ∧ bus (resume 0 (createStopHandler (Demo.started (Demo.answering [] None))).1)
    = bus (resume 0 (Demo.started (Demo.answering [] None)))
  ∧ bus (resume 0 (createStopHandler (Demo.started (Demo.answering [] None))).1)
    = bus (Demo.started (Demo.answering [] None))
      ++ [(channel, backlog_modify_complete (parseModifyResponse EmptyString))].
Proof.
  destruct (stop_is_noticed_only_at_a_message (Demo.started (Demo.answering [] None)) 0
              (job (Demo.answering [] None) (AwaitNext EmptyString [])))
    as (Hblind & _ & Hend & _); [reflexivity|].
  destruct Hblind as (_ & Htasks & Hbus & _); [reflexivity|].
  split; [exact Htasks|]. split; [exact Hbus|].
  apply (Hend EmptyString); reflexivity.
Defined.

Lemma a_sample_cleanup_of_another_job :
  currentAbortController closing = Some 1
  ∧ isRunning (resume 0 closing) = false
  ∧ currentAbortController (resume 0 closing) = None
  ∧ aborted 1 (resume 0 closing) = aborted 1 closing.
Proof.
  split; [reflexivity|].
  apply (cleanup_clears_the_state_of_another_job closing 0
           (job ab_stream (AwaitClose (ErrorObject "Generation aborted")))
           (job ab_stream (Returned (Rejected (ErrorObject "Generation aborted")))) 1).
  - reflexivity.
  - reflexivity.
  - reflexivity.
  - discriminate.
  - reflexivity.
  - reflexivity.
Defined.

Lemma a_sample_restart :
  (createGenerateHandler Demo.body ab_stream (createStopHandler (Demo.started ab_stream)).1).2
  = json_ok
  ∧ ∃ task,
      tasks (createGenerateHandler Demo.body ab_stream
               (createStopHandler (Demo.started ab_stream)).1).1
      = tasks (Demo.started ab_stream) ++ [task]
      ∧ at_ task = AwaitFeatures.
Proof.
  apply (stop_frees_the_scope_at_once (Demo.started ab_stream) Demo.body ab_stream).
  - apply reachable_run, reachable_initial.
  - reflexivity.
Defined.

Lemma a_sample_apply :
  (createApplyHandler DemoApply.body (Fulfilled DemoApply.features) DemoApply.succeeding).1
    `sublist_of` omap (requested (interpolate (apply_projectPath DemoApply.body)))
                   (filter (λ c, change_type c = "update") DemoApply.plan)
  ∧ ∀ call,
      call ∈ (createApplyHandler DemoApply.body (Fulfilled DemoApply.features)
                DemoApply.succeeding).1 →
      apply_projectPath DemoApply.body = Some (call_projectPath call)
      ∧ call_featureId call ≠ EmptyString
      ∧ ∃ change, change ∈ DemoApply.plan ∧ change_type change = "update"
                  ∧ change_featureId change = Some (call_featureId call)
                  ∧ change_feature change = Some (call_patch call).
Proof.
  apply (apply_makes_only_the_updates_the_plan_asks_for DemoApply.body
           (Fulfilled DemoApply.features) DemoApply.succeeding DemoApply.plan).
  reflexivity.
Defined.

Lemma a_sample_apply_skips_other_features :
  (createApplyHandler DemoApply.body (Fulfilled DemoApply.features) DemoApply.succeeding).1
  = [DemoApply.call_f1]
  ∧ ∃ f, f ∈ DemoApply.features ∧ id f = call_featureId DemoApply.call_f1
         ∧ loaded DemoApply.features (call_featureId DemoApply.call_f1) = Some f
         ∧ (status f = Some "backlog" ∨ status f = Some "in_progress").
Proof.
  assert (Hcalls :
    (createApplyHandler DemoApply.body (Fulfilled DemoApply.features)
       DemoApply.succeeding).1 = [DemoApply.call_f1]) by reflexivity.
  split; [exact Hcalls|].
  apply (apply_updates_only_loaded_backlog_features DemoApply.body DemoApply.features
           DemoApply.succeeding DemoApply.call_f1).
  rewrite Hcalls. apply list_elem_of_here.
Defined.

Lemma a_sample_apply_with_failing_updates :
  (createApplyHandler DemoApply.body_twice (Fulfilled DemoApply.features) DemoApply.failing).2
  = {| apply_status := 200; apply_success := true; apply_error := None;
       res_appliedChanges :=
         Some (reported DemoApply.failing
                 (createApplyHandler DemoApply.body_twice (Fulfilled DemoApply.features)
                    DemoApply.failing).1) |}
  ∧ (createApplyHandler DemoApply.body_twice (Fulfilled DemoApply.features)
       DemoApply.failing).1
    = [DemoApply.call_f1; DemoApply.call_f1].
Proof.
  destruct (apply_reports_the_updates_that_succeeded DemoApply.body_twice DemoApply.features
              DemoApply.failing) as (Hresponse & _ & Hcalls); [reflexivity|by eexists|].
  split; [exact Hresponse|].
  rewrite Hcalls; [reflexivity|]. intros n call f H. discriminate H.
Defined.

Lemma a_sample_toggle_all :
  toggleAllChanges (Some (parseModifyResponse "PLAN")) ∅
  = (if decide (∅ = allChanges (parseModifyResponse "PLAN"))
     then ∅ else allChanges (parseModifyResponse "PLAN"))
  ∧ toggleAllChanges (Some (parseModifyResponse "PLAN"))
      (allChanges (parseModifyResponse "PLAN")) = ∅
  ∧ toggleAllChanges None (∅ : gset nat) = ∅.
Proof.
  apply (toggle_all_clears_a_full_selection (parseModifyResponse "PLAN") ∅).
  apply empty_subseteq.
Defined.

(** The entry of a feature that depends on two others, as the prompt
    shows it. *)
Example formatFeature_lists_every_dependency :
  formatFeature DemoApply.dependent
  = "- ID: f7" +:+ nl +:+ "  Title: Search" +:+ nl +:+ "  Description: Find items" +:+ nl +:+
    "  Category: core" +:+ nl +:+ "  Status: backlog" +:+ nl +:+ "  Priority: 2" +:+ nl +:+
    "  Dependencies: [f1, f2]".
Proof. vm_compute. reflexivity. Qed.
